(** * port-wait: retry loop, coordinator and result record

    A shallow embedding of [src/port_wait/waiter.py] (classes [WaitResult]
    and [PortWaiter]) and of the body of [main] in [src/port_wait/cli.py]
    (header parsing, dispatch, verdict, report and exit code), with the
    properties its specification states and further properties of the code.

    Modelling conventions.
    - Python [float] values (times, intervals) are rationals [Q]; doubling,
      [min], comparison and subtraction are then exact.  Equality of times
      is [Qeq] ([==]).
    - Python [int] is [Z] and [dict] is a [gmap].  A [string] stands for the
      Python [str] with the same code points, all of them below 256: the
      character with code [n] is the code point [n].
    - The wall clock, the network and the standard output are an explicit
      world that is threaded through the code by a small state-and-error
      monad.  Time passes in three places: in a probe, in a sleep, and before
      a read of the clock, where the time that the interpreter spent since
      the last of these is added.  What the network answers, how long
      anything takes, which arguments the platform refuses and how a float is
      printed are given by an environment [Env].
    - The worker threads of [wait_for_multiple] run in parallel from the same
      starting time, each in a world of its own; the order in which they
      complete is an argument.
    - The [while] loop of [wait_for_target] is a [Fixpoint] on a fuel
      argument; running out of fuel is the outcome [Diverge]. *)

From Stdlib Require Import Ascii QArith Qround Qabs Qminmax Lqa.
From stdpp Require Import gmap strings list pretty.

Local Open Scope Z_scope.

(** ** Python values *)

(** The values that appear in keyword arguments and in the dictionary built
    by [WaitResult.to_dict]. *)
Inductive pyval : Type :=
  | VNone
  | VBool (b : bool)
  | VInt (z : Z)
  | VFloat (q : Q)
  | VStr (s : string)
  | VDict (d : gmap string string).

(** Numeric view of a value: [bool] is a subtype of [int] in Python. *)
Definition py_num (v : pyval) : option Q :=
  match v with
  | VBool b => Some (inject_Z (if b then 1 else 0))
  | VInt z => Some (inject_Z z)
  | VFloat q => Some q
  | _ => None
  end.

(** Python's [==] on these values. *)
Definition py_eq (a b : pyval) : bool :=
  match py_num a, py_num b with
  | Some x, Some y => Qeq_bool x y
  | _, _ =>
    match a, b with
    | VNone, VNone => true
    | VStr s, VStr t => bool_decide (s = t)
    | VDict d, VDict e => bool_decide (d = e)
    | _, _ => false
    end
  end.

(** Python's truth value, as used by [headers or {}]. *)
Definition py_truthy (v : pyval) : bool :=
  match v with
  | VNone => false
  | VBool b => b
  | VInt z => negb (z =? 0)
  | VFloat q => negb (Qeq_bool q 0)
  | VStr s => negb (bool_decide (s = ""%string))
  | VDict d => negb (bool_decide (d = ∅))
  end.

(** ** Rounding *)

(** Round to the nearest integer, ties to the even neighbour. *)
Definition round_half_even (x : Q) : Z :=
  let f := Qfloor x in
  match (x - inject_Z f ?= 1 # 2)%Q with
  | Lt => f
  | Gt => f + 1
  | Eq => if Z.even f then f else f + 1
  end.

(** [round(x, ndigits)] for a float [x] and [ndigits >= 0]: the multiple of
    [10^-ndigits] nearest to [x], ties to even. *)
Definition py_round (x : Q) (ndigits : Z) : Q :=
  (inject_Z (round_half_even (x * inject_Z (10 ^ ndigits))) / inject_Z (10 ^ ndigits))%Q.

(** ** WaitResult *)

Record WaitResult : Type := mkWaitResult {
  success : bool;
  target : string;
  attempts : Z;
  elapsed : Q;
  error : option string
}.

Definition py_opt_str (o : option string) : pyval :=
  match o with
  | Some s => VStr s
  | None => VNone
  end.

(** [WaitResult.to_dict]. *)
Definition to_dict (self : WaitResult) : gmap string pyval :=
  <["error" := py_opt_str (error self)]>
  (<["elapsed_seconds" := VFloat (py_round (elapsed self) 2)]>
  (<["attempts" := VInt (attempts self)]>
  (<["target" := VStr (target self)]>
  (<["success" := VBool (success self)]> ∅)))).

(** ** Strings: [startswith], [rsplit], [int]

    The characters of a [string] are the code points 0 to 255.  Among them
    the decimal digits are [0] to [9], and the white space is the ASCII white
    space together with the code points 133 and 160. *)

(** [s.startswith(p)]. *)
Definition startswith (p s : string) : bool := String.prefix p s.

(** [s.rsplit(sep, 1)] for a one-character separator: split at the last
    occurrence of [sep]; the list has one element when [sep] does not
    occur and two when it does. *)
Fixpoint rsplit1 (sep : ascii) (s : string) : list string :=
  match s with
  | EmptyString => [EmptyString]
  | String c rest =>
    match rsplit1 sep rest with
    | [h; p] => [String c h; p]
    | _ => if Ascii.eqb c sep then [EmptyString; rest] else [s]
    end
  end.

(** White space as [int] skips it: space, [\t], [\n], [\v], [\f], [\r],
    and the two code points 133 and 160, which [int] turns into spaces.  The
    separators 28 to 31 are white space for [str.strip] but not for [int]. *)
Definition is_space (c : ascii) : bool :=
  let n := Z.of_N (N_of_ascii c) in
  (n =? 32) || ((9 <=? n) && (n <=? 13)) || (n =? 133) || (n =? 160).

Definition digit_val (c : ascii) : option Z :=
  let n := Z.of_N (N_of_ascii c) in
  if (48 <=? n) && (n <=? 57) then Some (n - 48) else None.

Fixpoint lstrip (s : string) : string :=
  match s with
  | EmptyString => EmptyString
  | String c rest => if is_space c then lstrip rest else s
  end.

Fixpoint rstrip (s : string) : string :=
  match s with
  | EmptyString => EmptyString
  | String c rest =>
    match rstrip rest with
    | EmptyString => if is_space c then EmptyString else String c EmptyString
    | r => String c r
    end
  end.

(** Decimal digits with single underscores between digits; [prev] tells
    whether the previous character was a digit. *)
Fixpoint parse_digits (s : string) (acc : Z) (prev : bool) : option Z :=
  match s with
  | EmptyString => if prev then Some acc else None
  | String c rest =>
    match digit_val c with
    | Some d => parse_digits rest (acc * 10 + d) true
    | None => if Ascii.eqb c "_" && prev then parse_digits rest acc false else None
    end
  end.

(** The number of decimal digits in a string. *)
Fixpoint count_digits (s : string) : Z :=
  match s with
  | EmptyString => 0
  | String c rest =>
    match digit_val c with
    | Some _ => 1 + count_digits rest
    | None => count_digits rest
    end
  end.

(** The default of [sys.get_int_max_str_digits()]: [int] refuses a string
    with more decimal digits. *)
Definition int_max_str_digits : Z := 4300.

(** [int(s)], base 10: [None] stands for [ValueError]. *)
Definition py_int (s : string) : option Z :=
  if int_max_str_digits <? count_digits s then None
  else
    match lstrip (rstrip s) with
    | String "+" rest => parse_digits rest 0 false
    | String "-" rest => Z.opp <$> parse_digits rest 0 false
    | t => parse_digits t 0 false
    end.

(** [min(a, b)]: the first argument unless the second is smaller. *)
Definition py_min (a b : Q) : Q := if Qlt_le_dec b a then b else a.

(** ** Exceptions *)

(** The exception classes that matter here.  [OSError] stands for itself and
    its subclasses [socket.gaierror] and [socket.timeout]; [ValueError] also
    for its subclass [UnicodeError]. *)
Inductive exn : Type :=
  | ValueError (msg : string)
  | TypeError (msg : string)
  | OverflowError (msg : string)
  | OSError (msg : string).

(** ** The world: clock, network, standard output *)

(** What the code does to the outside: the creation of a socket, with which
    every call of [check_tcp_port] begins; the connect; the request of
    [check_http_endpoint]; a sleep; a printed line. *)
Inductive Event : Type :=
  | EvSocket
  | EvConnect (host : string) (port : Z)
  | EvRequest (method : pyval) (url : string) (headers : pyval)
  | EvSleep (secs : Q)
  | EvPrint (line : string).

(** The current time and the events so far, oldest first, each with the time
    at which it began. *)
Record World : Type := mkWorld {
  now : Q;
  trace : list (Q * Event)
}.

Definition record (ev : Event) (dt : Q) (w : World) : World :=
  {| now := (now w + dt)%Q; trace := trace w ++ [(now w, ev)] |}.

(** An event that takes no time of its own. *)
Definition note (ev : Event) (w : World) : World :=
  {| now := now w; trace := trace w ++ [(now w, ev)] |}.

(** What the code cannot decide by itself.
    - [clock_tick w]: the time that has passed, since the last probe, sleep
      or clock read, when [time.time()] reads the clock.
    - [socket_socket w]: the exception, if any, with which [socket.socket()]
      fails (line 38).
    - [settimeout_error tmo]: the exception, if any, with which
      [settimeout(tmo)] refuses a [tmo] that is not negative (line 39).
    - [connect_ex tmo host port w]: what [connect_ex] and [close] do (lines
      40-41): the error code that [connect_ex] returns, or the exception
      that is raised, and the time it took.
    - [http_request tmo method url headers w]: the status code of one
      request after redirects ([None] for any exception) and the time it
      took.
    - [sleep_error secs w]: the exception, if any, with which
      [time.sleep(secs)] refuses a length that is not negative.
    - [sleep_extra secs w]: by how much [time.sleep(secs)] oversleeps.
    - [fmt_float], [fmt_float_1f]: the text of a float in an f-string, plain
      and with [:.1f]. *)
Record Env : Type := mkEnv {
  clock_tick : World -> Q;
  socket_socket : World -> option exn;
  settimeout_error : Q -> option exn;
  connect_ex : Q -> string -> Z -> World -> (exn + Z) * Q;
  http_request : Q -> pyval -> string -> pyval -> World -> option Z * Q;
  sleep_error : Q -> World -> option exn;
  sleep_extra : Q -> World -> Q;
  fmt_float : Q -> string;
  fmt_float_1f : Q -> string
}.

(** Nothing takes negative time: the clock never goes back. *)
Definition EnvOk (E : Env) : Prop :=
  (forall w, (0 <= clock_tick E w)%Q) /\
  (forall tmo h p w, (0 <= snd (connect_ex E tmo h p w))%Q) /\
  (forall tmo m u hd w, (0 <= snd (http_request E tmo m u hd w))%Q) /\
  (forall s w, (0 <= sleep_extra E s w)%Q).

(** Is the exception an [OSError]? *)
Definition is_OSError (e : exn) : bool :=
  match e with
  | OSError _ => true
  | _ => false
  end.

(** ** A state and exception monad *)

Inductive res (A : Type) : Type :=
  | Ret (a : A)
  | Raise (e : exn)
  | Diverge.
Arguments Ret {A} a.
Arguments Raise {A} e.
Arguments Diverge {A}.

Definition M (A : Type) : Type := World -> res A * World.

Definition ret {A} (a : A) : M A := fun w => (Ret a, w).
Definition raise {A} (e : exn) : M A := fun w => (Raise e, w).
Definition diverge {A} : M A := fun w => (Diverge, w).

Definition bind {A B} (c : M A) (k : A -> M B) : M B :=
  fun w =>
    match c w with
    | (Ret a, w') => k a w'
    | (Raise e, w') => (Raise e, w')
    | (Diverge, w') => (Diverge, w')
    end.

Declare Scope py_scope.
Delimit Scope py_scope with py.
Notation "x <- c ;; k" := (bind c (fun x => k))
  (at level 20, c at level 99, k at level 200, only parsing) : py_scope.
Notation "c ;;; k" := (bind c (fun _ => k))
  (at level 100, k at level 200, right associativity, only parsing) : py_scope.

(** [try: body except ValueError: handler]. *)
Definition try_except_ValueError {A} (body handler : M A) : M A :=
  fun w =>
    match body w with
    | (Raise (ValueError _), w') => handler w'
    | other => other
    end.

(** [try: body except (socket.gaierror, socket.timeout, OSError): handler]. *)
Definition try_except_OSError {A} (body handler : M A) : M A :=
  fun w =>
    match body w with
    | (Raise (OSError _), w') => handler w'
    | other => other
    end.

(** An environment call that raises or not. *)
Definition raise_if (o : option exn) : M unit :=
  match o with
  | Some e => raise e
  | None => ret tt
  end.

(** [a, b = xs]. *)
Definition unpack2 {A} (xs : list A) : M (A * A) :=
  match xs with
  | [a; b] => ret (a, b)
  | [] | [_] => raise (ValueError "not enough values to unpack (expected 2)")
  | _ => raise (ValueError "too many values to unpack (expected 2)")
  end.

Definition int_of_str (s : string) : M Z :=
  match py_int s with
  | Some z => ret z
  | None => raise (ValueError "invalid literal for int() with base 10")
  end.

(** The clock moves on to the next read. *)
Definition tick (E : Env) (w : World) : World :=
  {| now := (now w + clock_tick E w)%Q; trace := trace w |}.

(** [time.time()]. *)
Definition time_time (E : Env) : M Q := fun w => (Ret (now (tick E w)), tick E w).

(** [time.sleep(secs)]: a negative length is a [ValueError]; the platform
    refuses some other lengths, such as those too large for its time type,
    with [OverflowError]. *)
Definition time_sleep (E : Env) (secs : Q) : M unit :=
  fun w =>
    if Qlt_le_dec secs 0
    then (Raise (ValueError "sleep length must be non-negative"), w)
    else
      match sleep_error E secs w with
      | Some e => (Raise e, w)
      | None => (Ret tt, record (EvSleep secs) (secs + sleep_extra E secs w) w)
      end.

(** [socket.socket(socket.AF_INET, socket.SOCK_STREAM)]: the call is made,
    and fails or not. *)
Definition socket_new (E : Env) : M unit :=
  fun w => raise_if (socket_socket E w) (note EvSocket w).

(** [sock.settimeout(value)]: a negative value is a [ValueError]. *)
Definition sock_settimeout (E : Env) (value : Q) : M unit :=
  if Qlt_le_dec value 0
  then raise (ValueError "Timeout value out of range")
  else raise_if (settimeout_error E value).

(** [sock.connect_ex((host, port))] followed by [sock.close()]. *)
Definition sock_connect_ex (E : Env) (tmo : Q) (host : string) (port : Z) : M Z :=
  fun w =>
    let r := connect_ex E tmo host port w in
    let w' := record (EvConnect host port) (snd r) w in
    match fst r with
    | inr result => (Ret result, w')
    | inl e => (Raise e, w')
    end.

Definition print (line : string) : M unit :=
  fun w => (Ret tt, record (EvPrint line) 0 w).

(** ** PortWaiter *)

Record PortWaiter : Type := mkPortWaiter {
  timeout : Q;
  initial_interval : Q;
  max_interval : Q;
  connection_timeout : Q
}.

(** The defaults of [PortWaiter.__init__]. *)
Definition default_waiter : PortWaiter :=
  {| timeout := 30; initial_interval := 1 # 2; max_interval := 5;
     connection_timeout := 2 |}.

(** [dict.get(key, default)]. *)
Definition dict_get (kwargs : gmap string pyval) (key : string) (dflt : pyval) : pyval :=
  default dflt (kwargs !! key).

Section Waiter.
Variable E : Env.
Variable self : PortWaiter.

Local Open Scope py_scope.

(** [PortWaiter.check_tcp_port]: true when the connect gives the error
    code 0, false when a socket call raises [OSError]; any other exception
    is not caught. *)
Definition check_tcp_port (host : string) (port : Z) : M bool :=
  try_except_OSError
    (socket_new E ;;;
     sock_settimeout E (connection_timeout self) ;;;
     result <- sock_connect_ex E (connection_timeout self) host port ;;
     ret (result =? 0))
    (ret false).

(** [PortWaiter.check_http_endpoint]: one request, true when the status
    code equals [expected_status]. *)
Definition check_http_endpoint (url : string) (expected_status method headers : pyval)
    : M bool :=
  fun w =>
    let hd := if py_truthy headers then headers else VDict ∅ in
    let r := http_request E (connection_timeout self) method url hd w in
    (Ret (match fst r with
          | Some code => py_eq (VInt code) expected_status
          | None => false
          end),
     record (EvRequest method url hd) (snd r) w).

Definition is_http (target : string) : bool :=
  startswith "http://" target || startswith "https://" target.

Definition invalid_target_msg : string :=
  "Invalid target format. Use host:port or http(s)://url".

Definition timeout_msg : string :=
  "Timeout after " +:+ fmt_float E (timeout self) +:+ "s".

Definition retry_msg (attempts : Z) (target : string) (interval : Q) : string :=
  "Attempt " +:+ pretty attempts +:+ ": " +:+ target +:+
  " not ready, retrying in " +:+ fmt_float_1f E interval +:+ "s...".

(** One probe of the loop body (lines 68-81): [inl ok] when a probe ran,
    [inr r] when the body returns [r] at once. *)
Definition probe_target (target : string) (kwargs : gmap string pyval)
    (start_time : Q) (attempts : Z) : M (bool + WaitResult) :=
  if is_http target then
    ok <- check_http_endpoint target
            (dict_get kwargs "expected_status" (VInt 200))
            (dict_get kwargs "method" (VStr "GET"))
            (dict_get kwargs "headers" VNone) ;;
    ret (inl ok)
  else
    try_except_ValueError
      (hp <- unpack2 (rsplit1 ":" target) ;;
       port <- int_of_str (snd hp) ;;
       ok <- check_tcp_port (fst hp) port ;;
       ret (inl ok))
      (t <- time_time E ;;
       ret (inr (mkWaitResult false target attempts (t - start_time)
                   (Some invalid_target_msg)))).

(** The [while] loop of [wait_for_target] (lines 65-93). *)
Fixpoint wait_loop (fuel : nat) (target : string) (verbose : bool)
    (kwargs : gmap string pyval) (start_time : Q) (attempts : Z) (interval : Q)
    : M WaitResult :=
  match fuel with
  | O => diverge
  | S fuel' =>
    t <- time_time E ;;
    if Qlt_le_dec (t - start_time) (timeout self) then
      let attempts := attempts + 1 in
      r <- probe_target target kwargs start_time attempts ;;
      match r with
      | inr result => ret result
      | inl true =>
        t <- time_time E ;;
        ret (mkWaitResult true target attempts (t - start_time) None)
      | inl false =>
        (if verbose then print (retry_msg attempts target interval) else ret tt) ;;;
        time_sleep E interval ;;;
        wait_loop fuel' target verbose kwargs start_time attempts
          (py_min (interval * 2) (max_interval self))
      end
    else
      t <- time_time E ;;
      ret (mkWaitResult false target attempts (t - start_time) (Some timeout_msg))
  end.

(** [PortWaiter.wait_for_target]. *)
Definition wait_for_target (fuel : nat) (target : string) (verbose : bool)
    (kwargs : gmap string pyval) : M WaitResult :=
  start_time <- time_time E ;;
  wait_loop fuel target verbose kwargs start_time 0 (initial_interval self).

End Waiter.

(** ** The coordinator *)

Section Coordinator.
Variable E : Env.
Variable self : PortWaiter.

(** The call [self.wait_for_target(target, verbose, **kwargs)] that a
    worker thread makes: a keyword that names a parameter already bound
    positionally is a [TypeError]. *)
Definition rebinds_parameter (kwargs : gmap string pyval) : bool :=
  bool_decide (is_Some (kwargs !! "self")) ||
  bool_decide (is_Some (kwargs !! "target")) ||
  bool_decide (is_Some (kwargs !! "verbose")).

Definition call_wait_for_target (fuel : nat) (target : string) (verbose : bool)
    (kwargs : gmap string pyval) : M WaitResult :=
  if rebinds_parameter kwargs
  then raise (TypeError "wait_for_target() got multiple values for argument")
  else wait_for_target E self fuel target verbose kwargs.

(** One worker thread per target ([max_workers=len(targets)]), all started
    when the pool is filled at time [t0].  The threads run in parallel and
    share nothing but the clock and the read-only waiter, so each run is
    the sequential run of its call from time [t0]; the run ends with the
    worker's result, its finishing time and its own events. *)
Definition run_workers (fuel : nat) (targets : list (string * gmap string pyval))
    (verbose : bool) (t0 : Q) : list (res WaitResult * World) :=
  map (fun tk => call_wait_for_target fuel (fst tk) verbose (snd tk) (mkWorld t0 []))
      targets.

(** The body of [for future in as_completed(futures)] (lines 103-112) over
    the futures in the order in which they complete; [future.result()]
    re-raises the exception of a worker. *)
Fixpoint collect (all_mode : bool) (done : list (res WaitResult))
    (results : list WaitResult) : res (list WaitResult) :=
  match done with
  | [] => Ret results
  | Ret result :: rest =>
    let results := results ++ [result] in
    if negb all_mode && success result then Ret results
    else collect all_mode rest results
  | Raise e :: _ => Raise e
  | Diverge :: _ => Diverge
  end.

Definition diverged {A} (r : res A) : bool :=
  match r with
  | Diverge => true
  | _ => false
  end.

(** The time at which every worker thread has ended. *)
Definition join_time (t0 : Q) (runs : list (res WaitResult * World)) : Q :=
  foldr (fun run t => if Qlt_le_dec t (now (snd run)) then now (snd run) else t) t0 runs.

(** [PortWaiter.wait_for_multiple].  [order] lists the workers in the order
    in which [as_completed] yields their futures.
    - [ThreadPoolExecutor(max_workers=0)] raises [ValueError].
    - [executor.shutdown(wait=False, cancel_futures=True)] cancels the
      futures that have not started; here every future has its own thread
      and has started, and a running call cannot be stopped.
    - Leaving the [with] block, by [return] or by an exception, calls
      [shutdown(wait=True)], which joins every worker thread: the call
      ends at [join_time], and not at all when a worker never ends. *)
Definition wait_for_multiple (fuel : nat) (targets : list (string * gmap string pyval))
    (all_mode verbose : bool) (order : list nat) : M (list WaitResult) :=
  fun w =>
    if bool_decide (length targets = 0%nat)
    then (Raise (ValueError "max_workers must be greater than 0"), w)
    else
      let runs := run_workers fuel targets verbose (now w) in
      let done := omap (fun i => fst <$> runs !! i) order in
      let w' := {| now := join_time (now w) runs;
                   trace := trace w ++ concat (map (fun run => trace (snd run)) runs) |} in
      if existsb (fun run => diverged (fst run)) runs
      then (Diverge, w')
      else (collect all_mode done [], w').

(** A worker that never ends never completes; the others complete in the
    order of their finishing times. *)
Definition finish_le (a b : res WaitResult * World) : bool :=
  match fst a, fst b with
  | _, Diverge => true
  | Diverge, _ => false
  | _, _ => Qle_bool (now (snd a)) (now (snd b))
  end.

Fixpoint sorted_by {A} (le : A -> A -> bool) (l : list A) : bool :=
  match l with
  | a :: (b :: _) as rest => le a b && sorted_by le rest
  | _ => true
  end.

(** [order] is an order in which [as_completed] can yield the futures. *)
Definition is_completion_order (runs : list (res WaitResult * World))
    (order : list nat) : bool :=
  bool_decide (order ≡ₚ seq 0 (length runs)) &&
  sorted_by finish_le (omap (fun i => runs !! i) order).

End Coordinator.

(** ** The success computation of the command line (cli.py, lines 63-65) *)

Definition all_success (results : list WaitResult) : bool := forallb success results.
Definition any_success (results : list WaitResult) : bool := existsb success results.

Definition overall_success (any_mode : bool) (results : list WaitResult) : bool :=
  if any_mode then any_success results else all_success results.

Definition exit_code (any_mode : bool) (results : list WaitResult) : Z :=
  if overall_success any_mode results then 0 else 1.

(** ** Sample environments *)

(** One decimal place, for the sample environments. *)
Definition dec1 (q : Q) : string :=
  let n := round_half_even (q * 10) in
  (if n <? 0 then "-" else "") +:+ pretty (Z.abs n / 10) +:+ "." +:+ pretty (Z.abs n mod 10).

(** A platform whose time type holds less than 9223372036 seconds. *)
Definition refuse_too_long (secs : Q) : option exn :=
  if Qlt_le_dec secs 9223372036 then None
  else Some (OverflowError "timestamp too large to convert to C _PyTime_t").

(** Hosts named [up] accept connections, all others refuse them (error code
    111); URLs answer 200 under [http://up] and 503 elsewhere.  A probe takes
    [cost] seconds, a clock read comes [lag] seconds after what went before
    it, and sleeps are exact. *)
Definition make_env (cost lag : Q) : Env :=
  {| clock_tick := fun _ => lag;
     socket_socket := fun _ => None;
     settimeout_error := refuse_too_long;
     connect_ex := fun _ host _ _ =>
       (inr (if bool_decide (host = "up"%string) then 0 else 111), cost);
     http_request := fun _ _ url _ _ =>
       (if String.prefix "http://up" url then Some 200 else Some 503, cost);
     sleep_error := fun secs _ => refuse_too_long secs;
     sleep_extra := fun _ _ => 0%Q;
     fmt_float := dec1;
     fmt_float_1f := dec1 |}.

(** The same with clock reads that take no time. *)
Definition stub_env (cost : Q) : Env := make_env cost 0.

(** Probes that take no time and a clock read every microsecond. *)
Definition slow_clock_env : Env := make_env 0 (1 # 1000000).

Definition w0 : World := mkWorld 0 [].

(** ** Vocabulary of the properties *)

Section Vocabulary.
Variable E : Env.
Variable self : PortWaiter.

(** The outcome of the loop body when a target is malformed. *)
Definition invalid_result (target : string) (attempts : Z) (dt : Q) : WaitResult :=
  mkWaitResult false target attempts dt (Some invalid_target_msg).

(** [c in s]. *)
Fixpoint occurs (c : ascii) (s : string) : bool :=
  match s with
  | EmptyString => false
  | String a rest => Ascii.eqb a c || occurs c rest
  end.

(** A non-HTTP target [host:p] whose part after the last colon is the
    number [port]. *)
Definition tcp_target (target host : string) (port : Z) : Prop :=
  is_http target = false /\
  exists p, target = host +:+ String ":" p /\ occurs ":" p = false /\
            py_int p = Some port.

(** A non-HTTP target with no colon, or with a part after the last colon
    that [int] refuses. *)
Definition malformed (target : string) : Prop :=
  is_http target = false /\
  (occurs ":" target = false \/
   exists host p, target = host +:+ String ":" p /\ occurs ":" p = false /\
                  py_int p = None).

(** The state after the print and the sleep that follow a failed probe. *)
Definition after_print (verbose : bool) (attempts : Z) (target : string)
    (interval : Q) (w : World) : World :=
  if verbose then record (EvPrint (retry_msg E attempts target interval)) 0 w else w.

Definition after_sleep (interval : Q) (w : World) : World :=
  record (EvSleep interval) (interval + sleep_extra E interval w) w.

(** The sleep lengths in a trace, oldest first. *)
Definition sleeps (evs : list (Q * Event)) : list Q :=
  omap (fun te => match snd te with EvSleep s => Some s | _ => None end) evs.

(** The interval after [k] failed attempts. *)
Fixpoint backoff (k : nat) : Q :=
  match k with
  | O => initial_interval self
  | S k' => py_min (backoff k' * 2) (max_interval self)
  end.

(** What an event of the loop for [target] can be. *)
Definition ev_ok (target : string) (kwargs : gmap string pyval) (ev : Event) : Prop :=
  match ev with
  | EvSocket => exists host port, tcp_target target host port
  | EvConnect host port => tcp_target target host port
  | EvRequest m url _ =>
    is_http target = true /\ url = target /\ m = dict_get kwargs "method" (VStr "GET")
  | EvSleep _ | EvPrint _ => True
  end.

(** 1 when the outcome was decided inside the loop body, by a probe that
    succeeded or by the invalid-target error; 0 for a timeout. *)
Definition decided_in_body (r : WaitResult) : Z :=
  if success r then 1
  else if bool_decide (error r = Some invalid_target_msg) then 1 else 0.

(** The events that a run added to the trace. *)
Definition new_events (w w' : World) : list (Q * Event) :=
  drop (length (trace w)) (trace w').



(** Probing the target raises nothing and ends. *)
Definition probe_quiet (tgt : string) (kwargs : gmap string pyval) : Prop :=
  forall start att w, exists o, fst (probe_target E self tgt kwargs start att w) = Ret o.

(** How a run of the loop can end with an outcome; in the last case the
    elapsed time is at least the timeout when the clock does not go back. *)
Definition outcome_of (tgt : string) (kwargs : gmap string pyval) (start : Q)
    (r : WaitResult) : Prop :=
  (exists att w, fst (probe_target E self tgt kwargs start att w) = Ret (inl true) /\
                 success r = true /\ error r = None) \/
  (exists att w, fst (probe_target E self tgt kwargs start att w) = Ret (inr r) /\
                 success r = false /\ error r = Some invalid_target_msg) \/
  (success r = false /\ error r = Some (timeout_msg E self) /\
   (EnvOk E -> (timeout self <= elapsed r)%Q)).

(** A number of turns that is enough for the timeout. *)
Definition turns (m : Q) : nat := Z.to_nat (Qceiling (timeout self / m)).

(** The world in which the loop condition has been tested for the first
    time: the clock was read for [start_time] and for the test. *)
Definition loop_entry (w : World) : World := tick E (tick E w).

(** The first test of the loop condition passes: less than the timeout
    lies between the two reads of the clock. *)
Definition enters_loop (w : World) : Prop :=
  (clock_tick E (tick E w) < timeout self)%Q.

(** The exception, if any, with which lines 38-39 fail before a connect. *)
Definition socket_setup (w : World) : option exn :=
  match socket_socket E w with
  | Some e => Some e
  | None =>
    if Qlt_le_dec (connection_timeout self) 0
    then Some (ValueError "Timeout value out of range")
    else settimeout_error E (connection_timeout self)
  end.

(** A configuration with which the loop runs to its end: nothing takes
    negative time, the backoff intervals are not negative and [time.sleep]
    accepts each of them, and every turn of the loop takes at least some
    [delta > 0], through the interval slept or through the clock read. *)
Definition runs_to_end : Prop :=
  EnvOk E /\
  (0 <= initial_interval self)%Q /\ (0 <= max_interval self)%Q /\
  (forall k w, sleep_error E (backoff k) w = None) /\
  exists delta, (0 < delta)%Q /\
    forall w, (delta <= initial_interval self + clock_tick E w)%Q /\
              (delta <= max_interval self + clock_tick E w)%Q.

End Vocabulary.

(** The outcomes up to and including the first success. *)
Fixpoint upto_first_success (rs : list WaitResult) : list WaitResult :=
  match rs with
  | [] => []
  | r :: rest => if success r then [r] else r :: upto_first_success rest
  end.

Definition sample_env : Env := stub_env (1 # 10).

Definition two_targets : list (string * gmap string pyval) :=
  [("up:80"%string, ∅); ("down:81"%string, ∅)].

Definition connects_to (host : string) (te : Q * Event) : bool :=
  match snd te with
  | EvConnect h _ => bool_decide (h = host)
  | _ => false
  end.

(** ** The command line (cli.py) *)

(** White space as [str.strip] removes it: tab to carriage return, the
    four separators 28 to 31, the space, and the code points 133 and 160. *)
Definition is_str_space (c : ascii) : bool :=
  let n := Z.of_N (N_of_ascii c) in
  (n =? 32) || ((9 <=? n) && (n <=? 13)) || ((28 <=? n) && (n <=? 31)) ||
  (n =? 133) || (n =? 160).

Fixpoint str_lstrip (s : string) : string :=
  match s with
  | EmptyString => EmptyString
  | String c rest => if is_str_space c then str_lstrip rest else s
  end.

Fixpoint str_rstrip (s : string) : string :=
  match s with
  | EmptyString => EmptyString
  | String c rest =>
    match str_rstrip rest with
    | EmptyString => if is_str_space c then EmptyString else String c EmptyString
    | r => String c r
    end
  end.

(** [s.strip()]. *)
Definition str_strip (s : string) : string := str_lstrip (str_rstrip s).

(** [s.split(sep, 1)] for a one-character separator: split at the first
    occurrence of [sep]. *)
Fixpoint split1 (sep : ascii) (s : string) : list string :=
  match s with
  | EmptyString => [EmptyString]
  | String c rest =>
    if Ascii.eqb c sep then [EmptyString; rest]
    else match split1 sep rest with
         | h :: tl => String c h :: tl
         | [] => [String c EmptyString]
         end
  end.

(** The loop over [header] (lines 37-41): a line without a colon is skipped;
    the others set the stripped text before the first colon to the stripped
    text after it. *)
Fixpoint parse_headers_from (headers : gmap string string) (header : list string)
    : M (gmap string string) :=
  match header with
  | [] => ret headers
  | h :: rest =>
    if occurs ":" h then
      bind (unpack2 (split1 ":" h)) (fun kv =>
        parse_headers_from (<[str_strip (fst kv) := str_strip (snd kv)]> headers) rest)
    else parse_headers_from headers rest
  end.

Definition parse_headers (header : list string) : M (gmap string string) :=
  parse_headers_from ∅ header.

(** The parsed command line, as [click] hands it to [main]. *)
Record CliArgs : Type := mkCliArgs {
  arg_targets : list string;
  arg_timeout : Q;
  arg_interval : Q;
  arg_max_interval : Q;
  arg_connection_timeout : Q;
  arg_expected_status : Z;
  arg_method : string;
  arg_header : list string;
  arg_any_mode : bool;
  arg_verbose : bool;
  arg_quiet : bool;
  arg_json_output : bool
}.

(** The dictionary [kwargs] of [main] (lines 50-54). *)
Definition cli_kwargs (expected_status : Z) (method : string)
    (headers : gmap string string) : gmap string pyval :=
  <["headers" := if bool_decide (headers = ∅) then VNone else VDict headers]>
  (<["method" := VStr method]>
  (<["expected_status" := VInt expected_status]> ∅)).

(** The dictionary [output] of [main] (lines 68-72). *)
Record JsonOutput : Type := mkJsonOutput {
  out_success : bool;
  out_mode : string;
  out_results : list (gmap string pyval)
}.

(** The line that [main] prints for one result (lines 76-82). *)
Definition result_line (E : Env) (verbose : bool) (result : WaitResult) : string :=
  let status := if success result then "✓" else "✗" in
  let msg := status +:+ " " +:+ target result in
  let msg :=
    if verbose || negb (success result)
    then msg +:+ " (attempts: " +:+ pretty (attempts result) +:+ ", elapsed: " +:+
         fmt_float_1f E (elapsed result) +:+ "s)"
    else msg in
  match error result with
  | Some e => if bool_decide (e = EmptyString) then msg else msg +:+ " - " +:+ e
  | None => msg
  end.

Fixpoint print_all (lines : list string) : M unit :=
  match lines with
  | [] => ret tt
  | l :: rest => bind (print l) (fun _ => print_all rest)
  end.

Section CommandLine.
Variable E : Env.

(** [json.dumps(output, indent=2)]. *)
Variable json_dumps : JsonOutput -> string.

Local Open Scope py_scope.

(** The waiter that [main] builds (lines 43-48). *)
Definition cli_waiter (a : CliArgs) : PortWaiter :=
  {| timeout := arg_timeout a;
     initial_interval := arg_interval a;
     max_interval := arg_max_interval a;
     connection_timeout := arg_connection_timeout a |}.

(** Lines 56-61: one target is waited for directly, several through
    [wait_for_multiple]. *)
Definition main_results (fuel : nat) (order : list nat) (a : CliArgs)
    (kwargs : gmap string pyval) : M (list WaitResult) :=
  match arg_targets a with
  | [t] =>
    result <- call_wait_for_target E (cli_waiter a) fuel t (arg_verbose a) kwargs ;;
    ret [result]
  | targets =>
    wait_for_multiple E (cli_waiter a) fuel
      (map (fun t => (t, kwargs)) targets)
      (negb (arg_any_mode a)) (arg_verbose a) order
  end.

(** Lines 63-82: the verdict and what is printed. *)
Definition report (a : CliArgs) (results : list WaitResult) : M unit :=
  let success := overall_success (arg_any_mode a) results in
  if arg_json_output a then
    print (json_dumps {| out_success := success;
                         out_mode := if arg_any_mode a then "any" else "all";
                         out_results := map to_dict results |})
  else if negb (arg_quiet a) || negb success then
    print_all (map (result_line E (arg_verbose a)) results)
  else ret tt.

(** The body of [main]; the value is the code given to [sys.exit]. *)
Definition main (fuel : nat) (order : list nat) (a : CliArgs) : M Z :=
  headers <- parse_headers (arg_header a) ;;
  let kwargs := cli_kwargs (arg_expected_status a) (arg_method a) headers in
  results <- main_results fuel order a kwargs ;;
  report a results ;;;
  ret (exit_code (arg_any_mode a) results).

End CommandLine.

(** ** More vocabulary *)

Definition is_probe (ev : Event) : bool :=
  match ev with
  | EvConnect _ _ | EvRequest _ _ _ => true
  | _ => false
  end.

(** The probes in a trace: the connects and the requests. *)
Definition probes (evs : list (Q * Event)) : list (Q * Event) :=
  List.filter (fun te => is_probe (snd te)) evs.

(** A call of [check_tcp_port] begins with the socket, a call of
    [check_http_endpoint] makes the request. *)
Definition is_call (ev : Event) : bool :=
  match ev with
  | EvSocket | EvRequest _ _ _ => true
  | _ => false
  end.

(** The calls of the two probe functions in a trace. *)
Definition calls (evs : list (Q * Event)) : list (Q * Event) :=
  List.filter (fun te => is_call (snd te)) evs.

(** The printed lines in a trace, oldest first. *)
Definition prints (evs : list (Q * Event)) : list string :=
  omap (fun te => match snd te with EvPrint l => Some l | _ => None end) evs.

(** ** More sample inputs *)

(** Every probe takes at most [c] seconds. *)
Definition probe_cost_at_most (E : Env) (c : Q) : Prop :=
  (forall tmo h p w, (snd (connect_ex E tmo h p w) <= c)%Q) /\
  (forall tmo m u hd w, (snd (http_request E tmo m u hd w) <= c)%Q).

(** A clock read comes at most [d] seconds after what went before it. *)
Definition clock_cost_at_most (E : Env) (d : Q) : Prop :=
  forall w, (clock_tick E w <= d)%Q.

(** A socket layer that checks the port: outside 0..65535 it is an
    [OverflowError] (from [connect_ex]); otherwise as [sample_env]. *)
Definition strict_env : Env :=
  {| clock_tick := clock_tick sample_env;
     socket_socket := socket_socket sample_env;
     settimeout_error := settimeout_error sample_env;
     connect_ex := fun _ host port _ =>
       (if (0 <=? port) && (port <=? 65535)
        then inr (if bool_decide (host = "up"%string) then 0 else 111)
        else inl (OverflowError "connect_ex(): port must be 0-65535."),
        1 # 10);
     http_request := http_request sample_env;
     sleep_error := sleep_error sample_env;
     sleep_extra := sleep_extra sample_env;
     fmt_float := dec1;
     fmt_float_1f := dec1 |}.

Definition failing_targets : list (string * gmap string pyval) :=
  [("down:80"%string, ∅); ("down:81"%string, ∅)].

Definition mixed_targets : list (string * gmap string pyval) :=
  [("up:80"%string, ∅); ("db:70000"%string, ∅)].

Definition sample_args : CliArgs :=
  {| arg_targets := ["http://up/health"%string];
     arg_timeout := 30; arg_interval := 1 # 2; arg_max_interval := 5;
     arg_connection_timeout := 2;
     arg_expected_status := 200; arg_method := "GET";
     arg_header := ["Accept: application/json"; "X-Trace:a:b"; "no colon here"]%string;
     arg_any_mode := false; arg_verbose := false; arg_quiet := false;
     arg_json_output := false |}.

Definition sample_json_dumps (out : JsonOutput) : string :=
  if out_success out then "{success: true}" else "{success: false}".

(** * Properties

    ** Rounding and [to_dict] *)





(** ** The retry loop *)

Section LoopFacts.
Variable E : Env.
Variable self : PortWaiter.

Lemma rsplit1_cases sep s :
  (occurs sep s = false /\ rsplit1 sep s = [s]) \/
  (exists h p, s = h +:+ String sep p /\ occurs sep p = false /\
               rsplit1 sep s = [h; p]).
Proof.
  induction s as [|c s IH]; cbn [rsplit1 occurs]; [by left|].
  destruct IH as [[Hn ->] | (h & p & -> & Hp & ->)].
  - destruct (Ascii.eqb_spec c sep) as [-> | Hne].
    + right. exists EmptyString, s. by repeat split.
    + left. by rewrite Hn.
  - right. exists (String c h), p. by repeat split.
Qed.

Lemma occurs_app sep a b : occurs sep (a +:+ b) = occurs sep a || occurs sep b.
Proof.
  induction a as [|c a IH]; simpl; [done|].
  by rewrite IH, orb_assoc.
Qed.

(** [rsplit] splits at the last separator. *)
Lemma rsplit1_last sep h p :
  occurs sep p = false -> rsplit1 sep (h +:+ String sep p) = [h; p].
Proof.
  intros Hp. destruct (rsplit1_cases sep (h +:+ String sep p))
    as [[Hn _] | (h' & p' & Heq & Hp' & ->)].
  - rewrite occurs_app in Hn. cbn [occurs] in Hn.
    rewrite Ascii.eqb_refl in Hn. by rewrite orb_true_r in Hn.
  - revert h' Heq. induction h as [|c h IH]; intros h' Heq.
    + destruct h' as [|c' h']; simpl in Heq.
      * by injection Heq as ->.
      * injection Heq as <- ->. rewrite occurs_app in Hp. cbn [occurs] in Hp.
        rewrite Ascii.eqb_refl in Hp. by rewrite orb_true_r in Hp.
    + destruct h' as [|c' h']; simpl in Heq.
      * injection Heq as -> <-. rewrite occurs_app in Hp'. cbn [occurs] in Hp'.
        rewrite Ascii.eqb_refl in Hp'. by rewrite orb_true_r in Hp'.
      * injection Heq as <- Heq. by specialize (IH h' Heq) as [= -> ->].
Qed.

Lemma rsplit1_none sep s : occurs sep s = false -> rsplit1 sep s = [s].
Proof.
  intros Hn. destruct (rsplit1_cases sep s) as [[_ H] | (h & p & -> & _ & _)]; [done|].
  rewrite occurs_app in Hn. cbn [occurs] in Hn.
  rewrite Ascii.eqb_refl in Hn. by rewrite orb_true_r in Hn.
Qed.

Lemma non_http_cases target :
  is_http target = false ->
  malformed target \/ exists host port, tcp_target target host port.
Proof.
  intros Hh. destruct (rsplit1_cases ":" target) as [[H1 _] | (h & p & H2 & Hp & _)].
  - left. split; [done | by left].
  - destruct (py_int p) as [port|] eqn:Hi.
    + right. exists h, port. split; [done | eauto].
    + left. split; [done | right; eauto 6].
Qed.

(** [check_tcp_port], call by call: the socket is created and configured,
    and only then connected. *)
Lemma check_tcp_port_eq host port w :
  check_tcp_port E self host port w =
  let w0 := note EvSocket w in
  match socket_setup E self w with
  | Some e => if is_OSError e then (Ret false, w0) else (Raise e, w0)
  | None =>
    let r := connect_ex E (connection_timeout self) host port w0 in
    let w' := record (EvConnect host port) (snd r) w0 in
    match fst r with
    | inr result => (Ret (result =? 0), w')
    | inl e => if is_OSError e then (Ret false, w') else (Raise e, w')
    end
  end.
Proof.
  unfold check_tcp_port, try_except_OSError, bind, socket_new, sock_settimeout,
    sock_connect_ex, socket_setup, raise_if, raise, ret.
  destruct (socket_socket E w) as [[]|]; try reflexivity.
  destruct (Qlt_le_dec (connection_timeout self) 0); [reflexivity|].
  destruct (settimeout_error E (connection_timeout self)) as [[]|]; try reflexivity.
  destruct (fst (connect_ex E (connection_timeout self) host port (note EvSocket w)))
    as [[]|]; reflexivity.
Qed.

(** The three ways in which the loop body probes. *)
Lemma probe_target_http target kwargs start attempts w :
  is_http target = true ->
  probe_target E self target kwargs start attempts w =
    let hd := dict_get kwargs "headers" VNone in
    let hd := if py_truthy hd then hd else VDict ∅ in
    let m := dict_get kwargs "method" (VStr "GET") in
    let r := http_request E (connection_timeout self) m target hd w in
    (Ret (inl match fst r with
              | Some code => py_eq (VInt code) (dict_get kwargs "expected_status" (VInt 200))
              | None => false
              end),
     record (EvRequest m target hd) (snd r) w).
Proof. intros H. unfold probe_target. rewrite H. reflexivity. Qed.

Lemma probe_target_tcp target host port kwargs start attempts w :
  tcp_target target host port ->
  probe_target E self target kwargs start attempts w =
    match check_tcp_port E self host port w with
    | (Ret ok, w') => (Ret (inl ok), w')
    | (Raise e, w') =>
      match e with
      | ValueError _ =>
        (Ret (inr (invalid_result target attempts (now (tick E w') - start))), tick E w')
      | _ => (Raise e, w')
      end
    | (Diverge, w') => (Diverge, w')
    end.
Proof.
  intros [Hh (p & -> & Hc & Hp)]. unfold probe_target. rewrite Hh.
  unfold try_except_ValueError, bind at 1, int_of_str.
  rewrite (rsplit1_last _ _ _ Hc). cbn [unpack2 ret]. unfold bind at 1. cbn [snd fst].
  rewrite Hp. unfold ret at 1, bind at 1.
  destruct (check_tcp_port E self host port w) as [[ok|[]|] w']; reflexivity.
Qed.

Lemma probe_target_tcp_ret target host port kwargs start attempts w ok :
  tcp_target target host port ->
  fst (check_tcp_port E self host port w) = Ret ok ->
  probe_target E self target kwargs start attempts w =
    (Ret (inl ok), snd (check_tcp_port E self host port w)).
Proof.
  intros Ht Hok. rewrite (probe_target_tcp _ _ _ _ _ _ _ Ht).
  destruct (check_tcp_port E self host port w) as [[ok'|e|] w']; cbn [fst snd] in *;
    try discriminate. by injection Hok as ->.
Qed.

Lemma probe_target_malformed target kwargs start attempts w :
  malformed target ->
  probe_target E self target kwargs start attempts w =
    (Ret (inr (invalid_result target attempts (now (tick E w) - start))), tick E w).
Proof.
  intros [Hh Hm]. unfold probe_target. rewrite Hh.
  unfold try_except_ValueError, bind, int_of_str.
  destruct Hm as [Hs | (h & p & -> & Hc & Hp)].
  - rewrite (rsplit1_none _ _ Hs). reflexivity.
  - rewrite (rsplit1_last _ _ _ Hc). simpl. rewrite Hp. reflexivity.
Qed.

Lemma tcp_target_not_malformed tgt host port : tcp_target tgt host port -> ~ malformed tgt.
Proof.
  intros [_ (p & -> & Hc & Hp)] [_ [Hn | (h' & p' & Heq & Hc' & Hp')]].
  - pose proof (rsplit1_none _ _ Hn) as H1.
    rewrite (rsplit1_last _ _ _ Hc) in H1. discriminate H1.
  - pose proof (rsplit1_last ":" h' p' Hc') as H1. rewrite <- Heq in H1.
    rewrite (rsplit1_last _ _ _ Hc) in H1. injection H1 as _ <-. congruence.
Qed.

(** One probe of the loop body, whatever the target.  Its events are no
    sleeps and no prints but events of this target; a malformed target gives
    none, and any other target exactly one call of a probe function, with at
    most one connect or request, and with one when the socket can be set up.
    It ends; an outcome that it returns is the invalid-target outcome of a
    target that is not HTTP, with the time of a clock read; time moves
    forward, by no more than one probe and one clock read. *)
Lemma probe_target_shape tgt kwargs start att w :
  exists o w' evs,
    probe_target E self tgt kwargs start att w = (o, w') /\
    trace w' = trace w ++ evs /\
    (sleeps evs = [] /\ prints evs = [] /\
     Forall (fun te => ev_ok tgt kwargs (snd te)) evs /\
     (length (probes evs) <= length (calls evs))%nat /\
     (malformed tgt -> evs = []) /\
     (~ malformed tgt -> length (calls evs) = 1%nat) /\
     (length (calls evs) <= 1)%nat) /\
    o <> Diverge /\
    (forall r, o = Ret (inr r) ->
       is_http tgt = false /\ r = invalid_result tgt att (now w' - start)) /\
    (EnvOk E -> (now w <= now w')%Q) /\
    (forall c d, probe_cost_at_most E c -> clock_cost_at_most E d ->
       (0 <= c)%Q -> (0 <= d)%Q ->
       (now w' <= now w + c + d)%Q /\
       (forall ok, o = Ret (inl ok) -> (now w' <= now w + c)%Q)) /\
    (~ malformed tgt -> socket_setup E self w = None -> length (probes evs) = 1%nat).
Proof.
  pose (P := fun (s : option exn) (o : res (bool + WaitResult)) (w' : World)
                 (evs : list (Q * Event)) =>
    trace w' = trace w ++ evs /\
    (sleeps evs = [] /\ prints evs = [] /\
     Forall (fun te => ev_ok tgt kwargs (snd te)) evs /\
     (length (probes evs) <= length (calls evs))%nat /\
     (malformed tgt -> evs = []) /\
     (~ malformed tgt -> length (calls evs) = 1%nat) /\
     (length (calls evs) <= 1)%nat) /\
    o <> Diverge /\
    (forall r, o = Ret (inr r) ->
       is_http tgt = false /\ r = invalid_result tgt att (now w' - start)) /\
    (EnvOk E -> (now w <= now w')%Q) /\
    (forall c d, probe_cost_at_most E c -> clock_cost_at_most E d ->
       (0 <= c)%Q -> (0 <= d)%Q ->
       (now w' <= now w + c + d)%Q /\
       (forall ok, o = Ret (inl ok) -> (now w' <= now w + c)%Q)) /\
    (~ malformed tgt -> s = None -> length (probes evs) = 1%nat)).
  enough (exists o w' evs,
            probe_target E self tgt kwargs start att w = (o, w') /\
            P (socket_setup E self w) o w' evs) as (o & w' & evs & Hp & HP)
    by (exists o, w', evs; split; [exact Hp | exact HP]).
  assert (is_http tgt = true \/ is_http tgt = false) as [Hh | Hh]
    by (destruct (is_http tgt); auto).
  { rewrite probe_target_http by done. cbn zeta.
    eexists _, _, [_]. split; [reflexivity|]. unfold P.
    split; [reflexivity|].
    split.
    { split; [done|]. split; [done|]. split; [by repeat constructor|].
      split; [done|]. split; [|split; [done | cbn; lia]].
      intros [Hm _]. congruence. }
    split; [discriminate|]. split; [intros r [=]|].
    split; [intros (_ & _ & Hq & _); cbn [record now];
            match goal with |- (_ <= _ + snd ?x)%Q => pose proof (Hq _ _ _ _ _ : 0 <= snd x)%Q end;
            lra|].
    split; [|done].
    intros c d [_ Hc] _ H0c H0d. cbn [record now].
    match goal with |- (_ + snd ?x <= _)%Q /\ _ => pose proof (Hc _ _ _ _ _ : snd x <= c)%Q end.
    split; [lra | intros; lra]. }
  destruct (non_http_cases tgt Hh) as [Hm | (h & p & Ht)].
  { rewrite probe_target_malformed by done.
    eexists _, _, []. split; [reflexivity|]. unfold P.
    split; [by rewrite app_nil_r|].
    split; [split; [done|]; split; [done|]; split; [constructor|]; split; [done|];
            split; [done|]; split; [done | cbn; lia]|].
    split; [discriminate|].
    split; [intros r [= <-]; done|].
    split; [intros (Hk & _); cbn [tick now]; pose proof (Hk w); lra|].
    split; [|done].
    intros c d _ Hd H0c H0d. cbn [tick now]. pose proof (Hd w).
    split; [lra | intros ok [=]]. }
  pose proof (tcp_target_not_malformed _ _ _ Ht) as Hnm.
  rewrite (probe_target_tcp _ _ _ _ _ _ _ Ht), check_tcp_port_eq. cbn zeta.
  set (w0 := note EvSocket w).
  destruct (socket_setup E self w) as [e|] eqn:Hs.
  { assert (forall (o : res (bool + WaitResult)) w',
              (o, w') = (Ret (inl false), w0) \/
              (o, w') = (Ret (inr (invalid_result tgt att (now (tick E w0) - start))),
                         tick E w0) \/
              (exists e', (o, w') = (Raise e', w0)) ->
              P (Some e) o w' [(now w, EvSocket)]) as Hcases.
    { intros o w' Hc. unfold P.
      destruct Hc as [[= -> ->] | [[= -> ->] | (e' & [= -> ->])]].
      all: split; [reflexivity|].
      all: split; [split; [done|]; split; [done|]; split; [apply Forall_cons_2; [by exists h, p | apply Forall_nil_2]|];
                   split; [cbn; lia|]; split; [done|]; split; [reflexivity | cbn; lia]|].
      all: split; [discriminate|].
      all: split; [first [by intros r [=] | by intros r [= <-]]|].
      all: split; [intros (Hk & _); cbn [tick note now w0]; pose proof (Hk w0);
                   cbn [note now w0] in *; lra|].
      all: split; [|discriminate].
      all: intros c d _ Hd H0c H0d; cbn [tick note now w0]; pose proof (Hd w0);
           cbn [note now w0] in *;
           split; [lra | try (intros ok [=]); intros; lra]. }
    destruct (is_OSError e) eqn:He.
    - eexists _, _, _; split; [reflexivity | apply Hcases; by left].
    - destruct e as [m|m|m|m]; try discriminate He.
      + eexists _, _, _; split; [reflexivity | apply Hcases; right; by left].
      + eexists _, _, _; split; [reflexivity | apply Hcases; right; right; eauto].
      + eexists _, _, _; split; [reflexivity | apply Hcases; right; right; eauto]. }
  set (d0 := snd (connect_ex E (connection_timeout self) h p w0)).
  set (w1 := record (EvConnect h p) d0 w0).
  assert (forall (o : res (bool + WaitResult)) w',
            (exists ok, (o, w') = (Ret (inl ok), w1)) \/
            (o, w') = (Ret (inr (invalid_result tgt att (now (tick E w1) - start))), tick E w1) \/
            (exists e', (o, w') = (Raise e', w1)) ->
            P None o w' [(now w, EvSocket); (now w, EvConnect h p)]) as Hcases.
  { intros o w' Hc. unfold P.
    destruct Hc as [(ok & [= -> ->]) | [[= -> ->] | (e' & [= -> ->])]].
    all: split; [subst w1 w0; cbn [tick record note trace now]; by rewrite <- app_assoc|].
    all: split; [split; [done|]; split; [done|]; split; [apply Forall_cons_2; [by exists h, p|];
                        apply Forall_cons_2; [exact Ht | apply Forall_nil_2]|];
                 split; [cbn; lia|]; split; [done|]; split; [reflexivity | cbn; lia]|].
    all: split; [discriminate|].
    all: split; [first [by intros r [=] | by intros r [= <-]]|].
    all: split; [intros (Hk & Hq & _); subst w1; cbn [tick record now];
                 pose proof (Hk (record (EvConnect h p) d0 w0));
                 pose proof (Hq (connection_timeout self) h p w0 : (0 <= d0)%Q);
                 subst w0; cbn [note now] in *; lra|].
    all: split; [|reflexivity].
    all: intros c d [Hq _] Hd H0c H0d; subst w1; cbn [tick record now];
         pose proof (Hd (record (EvConnect h p) d0 w0));
         pose proof (Hq (connection_timeout self) h p w0 : (d0 <= c)%Q);
         subst w0; cbn [note now] in *;
         split; [lra | try (intros ok' [=]); intros; lra]. }
  destruct (fst (connect_ex E (connection_timeout self) h p w0)) as [e|code].
  - destruct (is_OSError e) eqn:He.
    + eexists _, _, _; split; [reflexivity | apply Hcases; left; eauto].
    + destruct e as [m|m|m|m]; try discriminate He.
      * eexists _, _, _; split; [reflexivity | apply Hcases; right; by left].
      * eexists _, _, _; split; [reflexivity | apply Hcases; right; right; eauto].
      * eexists _, _, _; split; [reflexivity | apply Hcases; right; right; eauto].
  - eexists _, _, _; split; [reflexivity | apply Hcases; left; eauto].
Qed.

(** One turn of the loop. *)
Lemma wait_loop_S fuel target verbose kwargs start attempts interval w :
  wait_loop E self (S fuel) target verbose kwargs start attempts interval w =
  let w0 := tick E w in
  if Qlt_le_dec (now w0 - start) (timeout self) then
    match probe_target E self target kwargs start (attempts + 1) w0 with
    | (Ret (inr result), w1) => (Ret result, w1)
    | (Ret (inl true), w1) =>
      (Ret (mkWaitResult true target (attempts + 1) (now (tick E w1) - start) None),
       tick E w1)
    | (Ret (inl false), w1) =>
      let w2 := after_print E verbose (attempts + 1) target interval w1 in
      if Qlt_le_dec interval 0
      then (Raise (ValueError "sleep length must be non-negative"), w2)
      else
        match sleep_error E interval w2 with
        | Some e => (Raise e, w2)
        | None =>
          wait_loop E self fuel target verbose kwargs start (attempts + 1)
            (py_min (interval * 2) (max_interval self)) (after_sleep E interval w2)
        end
    | (Raise e, w1) => (Raise e, w1)
    | (Diverge, w1) => (Diverge, w1)
    end
  else (Ret (mkWaitResult false target attempts (now (tick E w0) - start)
               (Some (timeout_msg E self))), tick E w0).
Proof.
  cbn [wait_loop]. unfold bind at 1, time_time at 1. cbv zeta.
  destruct (Qlt_le_dec (now (tick E w) - start) (timeout self)); [|reflexivity].
  unfold bind at 1.
  destruct (probe_target E self target kwargs start (attempts + 1) (tick E w))
    as [[[[|]|result]|e|] w1]; try reflexivity.
  unfold after_print, after_sleep, bind, time_sleep, print, ret.
  destruct verbose; destruct (Qlt_le_dec interval 0); try reflexivity.
  - by destruct (sleep_error E interval _).
  - by destruct (sleep_error E interval _).
Qed.

Lemma wait_for_target_eq fuel target verbose kwargs w :
  wait_for_target E self fuel target verbose kwargs w =
  wait_loop E self fuel target verbose kwargs (now (tick E w)) 0 (initial_interval self)
    (tick E w).
Proof. reflexivity. Qed.

Lemma sleeps_app a b : sleeps (a ++ b) = sleeps a ++ sleeps b.
Proof. apply omap_app. Qed.

Lemma probes_app a b : probes (a ++ b) = probes a ++ probes b.
Proof. unfold probes. apply List.filter_app. Qed.

Lemma calls_app a b : calls (a ++ b) = calls a ++ calls b.
Proof. unfold calls. apply List.filter_app. Qed.

Lemma prints_app a b : prints (a ++ b) = prints a ++ prints b.
Proof. apply omap_app. Qed.

Lemma timeout_msg_not_invalid : timeout_msg E self <> invalid_target_msg.
Proof. unfold timeout_msg, invalid_target_msg. simpl. discriminate. Qed.

Lemma after_print_events verbose att tgt interval w :
  exists pe, trace (after_print E verbose att tgt interval w) = trace w ++ pe /\
             (probes pe = [] /\ calls pe = []) /\ sleeps pe = [] /\
             prints pe = (if verbose then [retry_msg E att tgt interval] else []) /\
             forall kwargs, Forall (fun te => ev_ok tgt kwargs (snd te)) pe.
Proof.
  unfold after_print. destruct verbose.
  - eexists [_]. repeat split. intros. by repeat constructor.
  - exists []. rewrite app_nil_r. repeat split. intros. constructor.
Qed.

Lemma now_after_print verbose att tgt interval w :
  (now (after_print E verbose att tgt interval w) == now w)%Q.
Proof. unfold after_print. destruct verbose; cbn [record now]; lra. Qed.

Lemma new_events_app w w' evs : trace w' = trace w ++ evs -> new_events w w' = evs.
Proof. intros H. unfold new_events. rewrite H. apply drop_app_length. Qed.

(** The shape of every run of the loop that starts with the interval
    [backoff self k]: the new events are events of this target, the new sleeps
    are the next [n] backoff intervals, and a returned outcome counts one
    attempt per sleep plus the attempt that decided it; it counts an attempt
    of this turn exactly when the test of this turn passes. *)
Lemma wait_loop_run fuel tgt verbose kwargs start : forall att k w,
  exists evs n,
    trace (snd (wait_loop E self fuel tgt verbose kwargs start att (backoff self k) w))
      = trace w ++ evs /\
    sleeps evs = map (backoff self) (seq k n) /\
    Forall (fun te => ev_ok tgt kwargs (snd te)) evs /\
    forall r,
      fst (wait_loop E self fuel tgt verbose kwargs start att (backoff self k) w) = Ret r ->
      target r = tgt /\
      attempts r = att + Z.of_nat n + decided_in_body r /\
      (is_http tgt = true -> error r <> Some invalid_target_msg) /\
      ((now (tick E w) - start < timeout self)%Q -> att + 1 <= attempts r) /\
      ((timeout self <= now (tick E w) - start)%Q ->
       attempts r = att /\ success r = false /\ error r = Some (timeout_msg E self)).
Proof.
  induction fuel as [|fuel IH]; intros att k w.
  { exists [], 0%nat. simpl. rewrite app_nil_r. by repeat split. }
  rewrite wait_loop_S. cbv zeta.
  destruct (Qlt_le_dec (now (tick E w) - start) (timeout self)) as [Hlt | Hge].
  2:{ exists [], 0%nat. cbn [fst snd tick trace]. rewrite app_nil_r.
      split; [done|]. split; [done|]. split; [constructor|].
      intros r [= <-]. unfold decided_in_body.
      cbn [success error attempts target].
      rewrite bool_decide_eq_false_2
        by (intros H; apply timeout_msg_not_invalid; congruence).
      split; [done|]. split; [lia|]. split.
      - intros _ H. apply timeout_msg_not_invalid. congruence.
      - split; [intros H; exfalso; lra | done]. }
  destruct (probe_target_shape tgt kwargs start (att + 1) (tick E w))
    as (o & w1 & evs0 & -> & Htr0 & (Hsl0 & _ & Hok0 & _) & Hnd & Hinv & _).
  cbn [tick trace] in Htr0.
  destruct o as [[[|]|r0]|e|]; [| | | |done].
  - exists evs0, 0%nat. cbn [fst snd tick trace].
    split; [done|]. split; [done|]. split; [done|].
    intros r [= <-]. unfold decided_in_body. cbn [success error attempts target].
    split; [done|]. split; [lia|]. split; [done|]. split; [lia | intros; lra].
  - cbn zeta.
    destruct (after_print_events verbose (att + 1) tgt (backoff self k) w1)
      as (pe & Hpe & _ & Hpsl & _ & Hpok).
    set (w2 := after_print E verbose (att + 1) tgt (backoff self k) w1) in *.
    assert (exists evs n,
              trace w2 = trace w ++ evs /\ sleeps evs = map (backoff self) (seq k n) /\
              n = 0%nat /\ Forall (fun te => ev_ok tgt kwargs (snd te)) evs) as Hstop.
    { exists (evs0 ++ pe), 0%nat. rewrite Hpe, Htr0, <- app_assoc.
      split; [done|]. split; [by rewrite sleeps_app, Hsl0, Hpsl|]. split; [done|].
      apply Forall_app. split; [done | apply Hpok]. }
    destruct (Qlt_le_dec (backoff self k) 0) as [Hneg | Hpos].
    { destruct Hstop as (evs & n & H1 & H2 & -> & H3). exists evs, 0%nat. cbn [fst snd].
      split; [done|]. split; [done|]. split; [done|]. intros r [=]. }
    destruct (sleep_error E (backoff self k) w2) as [e|].
    { destruct Hstop as (evs & n & H1 & H2 & -> & H3). exists evs, 0%nat. cbn [fst snd].
      split; [done|]. split; [done|]. split; [done|]. intros r [=]. }
    destruct (IH (att + 1) (S k) (after_sleep E (backoff self k) w2))
      as (evs & n & Htr & Hs & Hok & Hr).
    exists (evs0 ++ pe ++ (now w2, EvSleep (backoff self k)) :: evs), (S n).
    split.
    { cbn [backoff] in Htr. rewrite Htr. unfold after_sleep. cbn [record trace].
      rewrite Hpe, Htr0. by rewrite <- !app_assoc. }
    split.
    { change ((now w2, EvSleep (backoff self k)) :: evs)
        with ([(now w2, EvSleep (backoff self k))] ++ evs).
      rewrite !sleeps_app, Hsl0, Hpsl, Hs. reflexivity. }
    split.
    { apply Forall_app. split; [done|]. apply Forall_app. split; [apply Hpok|].
      constructor; [done | apply Hok]. }
    intros r Hret. cbn [backoff] in Hr. destruct (Hr r Hret) as (Ht & Ha & Hh & _).
    split; [done|]. split; [lia|]. split; [done|].
    split; [|intros; lra].
    intros _. unfold decided_in_body in Ha.
    destruct (success r); [lia|]. case_bool_decide; lia.
  - exists evs0, 0%nat. cbn [fst snd].
    split; [done|]. split; [done|]. split; [done|].
    intros r [= <-]. destruct (Hinv _ eq_refl) as [Hh ->].
    unfold decided_in_body, invalid_result. cbn [success error attempts target].
    rewrite bool_decide_eq_true_2 by done.
    split; [done|]. split; [lia|]. split; [congruence|]. split; [lia | intros; lra].
  - exists evs0, 0%nat. cbn [fst snd].
    split; [done|]. split; [done|]. split; [done|]. intros r [=].
Qed.

Lemma backoff_ge m :
  (0 <= m)%Q -> (m <= initial_interval self)%Q -> (m <= max_interval self)%Q ->
  forall k, (m <= backoff self k)%Q.
Proof.
  intros H0 Hi Hm. induction k as [|k IH]; cbn [backoff]; [done|].
  unfold py_min. destruct (Qlt_le_dec _ _); lra.
Qed.

Lemma backoff_le s :
  (initial_interval self <= s)%Q -> (max_interval self <= s)%Q ->
  forall k, (backoff self k <= s)%Q.
Proof.
  intros Hi Hx [|k]; cbn [backoff]; [done|].
  unfold py_min. destruct (Qlt_le_dec _ _); lra.
Qed.

(** Each turn takes its share: the interval slept and the clock read that
    follows are together at least [delta]. *)
Lemma backoff_tick_ge delta :
  (0 <= initial_interval self)%Q -> (0 <= max_interval self)%Q ->
  (forall w, (delta <= initial_interval self + clock_tick E w)%Q /\
             (delta <= max_interval self + clock_tick E w)%Q) ->
  forall k w, (delta <= backoff self k + clock_tick E w)%Q.
Proof.
  intros Hi Hx Hd k w. destruct (Hd w) as [H1 H2].
  destruct (Qlt_le_dec (delta - clock_tick E w) 0) as [Hneg | Hpos].
  - pose proof (backoff_ge 0 ltac:(lra) Hi Hx k). lra.
  - pose proof (backoff_ge (delta - clock_tick E w) Hpos ltac:(lra) ltac:(lra) k). lra.
Qed.

(** Total correctness of the loop: when nothing takes negative time, no
    probe and no sleep raises, and every turn takes at least [delta > 0],
    [n] turns with [timeout <= n * delta] are enough. *)
Lemma wait_loop_total tgt verbose kwargs start delta :
  EnvOk E -> probe_quiet E self tgt kwargs ->
  (0 <= initial_interval self)%Q -> (0 <= max_interval self)%Q ->
  (forall k w, sleep_error E (backoff self k) w = None) ->
  (0 < delta)%Q ->
  (forall w, (delta <= initial_interval self + clock_tick E w)%Q /\
             (delta <= max_interval self + clock_tick E w)%Q) ->
  forall n att k w,
    (timeout self - (now (tick E w) - start) <= inject_Z (Z.of_nat n) * delta)%Q ->
    exists r w',
      wait_loop E self (S n) tgt verbose kwargs start att (backoff self k) w = (Ret r, w') /\
      outcome_of E self tgt kwargs start r.
Proof.
  intros HE Hq Hi Hx Hsl Hdelta Hd. induction n as [|n IH]; intros att k w Hb;
    rewrite wait_loop_S; cbv zeta;
    (destruct (Qlt_le_dec (now (tick E w) - start) (timeout self)) as [Hlt | Hge];
     [| eexists _, _; split; [reflexivity|]; right; right;
        split; [done|]; split; [done|]; intros _; cbn [elapsed tick now];
        destruct HE as (Hk & _); pose proof (Hk (tick E w)); cbn [tick now] in *; lra]).
  { exfalso. change (inject_Z (Z.of_nat 0)) with 0%Q in Hb. lra. }
  destruct (probe_target_shape tgt kwargs start (att + 1) (tick E w))
    as (o & w1 & evs0 & Hp & _ & _ & Hnd & _ & Hmono & _).
  rewrite Hp. specialize (Hmono HE).
  destruct (Hq start (att + 1) (tick E w)) as [o' Ho']. rewrite Hp in Ho'.
  cbn [fst] in Ho'. subst o.
  destruct o' as [[|]|r0].
  - eexists _, _. split; [reflexivity|]. left. exists (att + 1), (tick E w). by rewrite Hp.
  - cbn zeta. pose proof (backoff_ge 0 ltac:(lra) Hi Hx k) as Hk.
    destruct (Qlt_le_dec (backoff self k) 0) as [Hneg | _]; [exfalso; lra|].
    rewrite Hsl.
    apply (IH (att + 1) (S k)).
    set (w2 := after_print E verbose (att + 1) tgt (backoff self k) w1) in *.
    pose proof (now_after_print verbose (att + 1) tgt (backoff self k) w1) as Hnp.
    fold w2 in Hnp.
    pose proof (backoff_tick_ge delta Hi Hx Hd k (after_sleep E (backoff self k) w2)) as Hbt.
    destruct HE as (_ & _ & _ & Hse). pose proof (Hse (backoff self k) w2) as Hex.
    cbn [tick now after_sleep record] in *.
    rewrite Nat2Z.inj_succ, <- Z.add_1_r, inject_Z_plus in Hb.
    change (inject_Z 1) with 1%Q in Hb. lra.
  - eexists _, _. split; [reflexivity|]. right; left.
    exists (att + 1), (tick E w). rewrite Hp. split; [done|].
    destruct (probe_target_shape tgt kwargs start (att + 1) (tick E w))
      as (o2 & w2 & evs2 & Hp2 & _ & _ & _ & Hinv & _).
    rewrite Hp in Hp2. injection Hp2 as <- <-.
    destruct (Hinv _ eq_refl) as [_ ->]. done.
Qed.

(** Every outcome of the loop comes from a probe that succeeded, from a
    target that could not be probed, or from the timeout. *)
Lemma wait_loop_outcome tgt verbose kwargs start : forall fuel att interval w r,
  fst (wait_loop E self fuel tgt verbose kwargs start att interval w) = Ret r ->
  outcome_of E self tgt kwargs start r.
Proof.
  induction fuel as [|fuel IH]; intros att interval w r Hr; [discriminate Hr|].
  rewrite wait_loop_S in Hr. cbv zeta in Hr.
  destruct (Qlt_le_dec (now (tick E w) - start) (timeout self)) as [Hlt | Hge].
  2:{ injection Hr as <-. right; right. split; [done|]. split; [done|].
      intros (Hk & _). cbn [elapsed tick now]. pose proof (Hk (tick E w)).
      cbn [tick now] in *. lra. }
  destruct (probe_target_shape tgt kwargs start (att + 1) (tick E w))
    as (o & w1 & evs0 & Hp & _ & _ & Hnd & Hinv & _).
  rewrite Hp in Hr.
  destruct o as [[[|]|r0]|e|]; [| | |discriminate Hr|done].
  - injection Hr as <-. left. exists (att + 1), (tick E w). by rewrite Hp.
  - cbn zeta in Hr. destruct (Qlt_le_dec interval 0); [discriminate Hr|].
    destruct (sleep_error E interval _); [discriminate Hr|].
    by apply IH in Hr.
  - injection Hr as <-. right; left. exists (att + 1), (tick E w). rewrite Hp.
    split; [done|]. destruct (Hinv _ eq_refl) as [_ ->]. done.
Qed.

Lemma turns_enough m n :
  (0 < m)%Q -> (turns self m <= n)%nat -> (timeout self <= inject_Z (Z.of_nat n) * m)%Q.
Proof.
  intros Hm Hn. unfold turns in Hn.
  pose proof (Qle_ceiling (timeout self / m)) as Hc.
  assert (inject_Z (Qceiling (timeout self / m)) <= inject_Z (Z.of_nat n))%Q as Hz.
  { rewrite <- Zle_Qle. lia. }
  assert (timeout self == timeout self / m * m)%Q as ->.
  { field. lra. }
  apply Qmult_le_compat_r; lra.
Qed.

(** With a configuration that runs to its end, one number of turns is
    enough for every target whose probes raise nothing. *)
Lemma wait_for_target_total :
  runs_to_end E self ->
  exists N, forall fuel tgt verbose kwargs w,
    (N <= fuel)%nat -> probe_quiet E self tgt kwargs ->
    exists r w',
      wait_for_target E self fuel tgt verbose kwargs w = (Ret r, w') /\
      outcome_of E self tgt kwargs (now (tick E w)) r.
Proof.
  intros (HE & Hi & Hx & Hsl & delta & Hdelta & Hd).
  exists (S (turns self delta)). intros fuel tgt verbose kwargs w Hf Hq.
  destruct fuel as [|n]; [lia|].
  rewrite wait_for_target_eq.
  apply (wait_loop_total tgt verbose kwargs (now (tick E w)) delta HE Hq Hi Hx Hsl
           Hdelta Hd n 0 0%nat (tick E w)).
  pose proof (turns_enough delta n Hdelta ltac:(lia)).
  destruct HE as (Hk & _). pose proof (Hk (tick E w)). cbn [tick now]. lra.
Qed.

(** After the first probe of a turn, the run only adds events. *)
Lemma wait_loop_extends fuel tgt verbose kwargs start att k w o w1 :
  (now (tick E w) - start < timeout self)%Q ->
  probe_target E self tgt kwargs start (att + 1) (tick E w) = (o, w1) ->
  exists more,
    trace (snd (wait_loop E self (S fuel) tgt verbose kwargs start att (backoff self k) w))
      = trace w1 ++ more.
Proof.
  intros Hlt Hp. rewrite wait_loop_S. cbv zeta.
  destruct (Qlt_le_dec (now (tick E w) - start) (timeout self)) as [_ | Hge]; [|lra].
  rewrite Hp. destruct o as [[[|]|r]|e|];
    try (exists []; cbn [snd tick trace]; by rewrite app_nil_r).
  cbn zeta.
  destruct (after_print_events verbose (att + 1) tgt (backoff self k) w1)
    as (pe & Hpe & _).
  destruct (Qlt_le_dec (backoff self k) 0); [by exists pe|].
  destruct (sleep_error E (backoff self k) _); [by exists pe|].
  destruct (wait_loop_run fuel tgt verbose kwargs start (att + 1) (S k)
              (after_sleep E (backoff self k)
                 (after_print E verbose (att + 1) tgt (backoff self k) w1)))
    as (evs & n & Htr & _).
  eexists. cbn [backoff] in Htr. rewrite Htr.
  unfold after_sleep. cbn [record trace]. rewrite Hpe.
  rewrite <- !app_assoc. reflexivity.
Qed.

End LoopFacts.

Lemma py_min_Qmin a b : (py_min a b == Qmin a b)%Q.
Proof.
  unfold py_min. destruct (Qlt_le_dec b a) as [H | H].
  - symmetry. apply Q.min_r. lra.
  - symmetry. by apply Q.min_l.
Qed.

(** The events of the first probe are the first events of the call. *)
Lemma first_events E self fuel tgt verbose kwargs w evs0 o w1 :
  enters_loop E self w ->
  probe_target E self tgt kwargs (now (tick E w)) (0 + 1) (loop_entry E w) = (o, w1) ->
  trace w1 = trace w ++ evs0 ->
  exists rest,
    new_events w (snd (wait_for_target E self (S fuel) tgt verbose kwargs w))
      = evs0 ++ rest.
Proof.
  intros Hin Hp Htr. rewrite wait_for_target_eq.
  destruct (wait_loop_extends E self fuel tgt verbose kwargs (now (tick E w)) 0 0%nat
              (tick E w) o w1) as (more & Hmore).
  - unfold enters_loop in Hin. cbn [tick now]. lra.
  - exact Hp.
  - exists more. apply new_events_app. cbn [backoff] in Hmore.
    rewrite Hmore, Htr. by rewrite <- app_assoc.
Qed.

Lemma first_event E self fuel tgt verbose kwargs w ev o w1 :
  enters_loop E self w ->
  probe_target E self tgt kwargs (now (tick E w)) (0 + 1) (loop_entry E w) = (o, w1) ->
  trace w1 = trace w ++ [(now (loop_entry E w), ev)] ->
  exists rest,
    new_events w (snd (wait_for_target E self (S fuel) tgt verbose kwargs w))
      = (now (loop_entry E w), ev) :: rest.
Proof. apply first_events. Qed.

(** With a clock that is read in no time, the first test of the loop
    condition passes exactly when the timeout is positive. *)
Lemma enters_loop_instant E self w :
  (clock_tick E (tick E w) == 0)%Q ->
  (enters_loop E self w <-> (0 < timeout self)%Q).
Proof. unfold enters_loop. intros H. split; intros; lra. Qed.

(** C3 (as amended): the outcome of [wait_for_target] has [attempts >= 1]
    exactly when the first test of the loop condition passes, that is when
    less than the overall timeout lies between the clock read for
    [start_time] and the clock read of the test.  Otherwise the loop body
    never runs: the outcome is the timeout with [attempts = 0] and no probe
    was made; this is always so for a timeout of zero or less when the clock
    does not go back.  When the test passes, an outcome is returned under a
    configuration that runs to its end and probes that raise nothing. *)
Theorem attempts_vs_timeout E self tgt verbose kwargs w :
  (forall fuel r,
     fst (wait_for_target E self fuel tgt verbose kwargs w) = Ret r ->
     (enters_loop E self w -> 1 <= attempts r) /\
     (~ enters_loop E self w ->
      attempts r = 0 /\ success r = false /\ error r = Some (timeout_msg E self))) /\
  (~ enters_loop E self w ->
   forall fuel, exists r,
     fst (wait_for_target E self (S fuel) tgt verbose kwargs w) = Ret r /\
     new_events w (snd (wait_for_target E self (S fuel) tgt verbose kwargs w)) = []) /\
  (EnvOk E -> (timeout self <= 0)%Q -> ~ enters_loop E self w) /\
  (enters_loop E self w -> runs_to_end E self -> probe_quiet E self tgt kwargs ->
   exists N, forall fuel, (N <= fuel)%nat ->
     exists r, fst (wait_for_target E self fuel tgt verbose kwargs w) = Ret r /\
               1 <= attempts r).
Proof.
  assert (forall fuel r,
     fst (wait_for_target E self fuel tgt verbose kwargs w) = Ret r ->
     (enters_loop E self w -> 1 <= attempts r) /\
     (~ enters_loop E self w ->
      attempts r = 0 /\ success r = false /\ error r = Some (timeout_msg E self))) as H1.
  { intros fuel r Hr. rewrite wait_for_target_eq in Hr.
    destruct (wait_loop_run E self fuel tgt verbose kwargs (now (tick E w)) 0 0%nat (tick E w))
      as (evs & n & _ & _ & _ & Hall).
    destruct (Hall r Hr) as (_ & _ & _ & Hin & Hout). unfold enters_loop.
    cbn [tick now] in Hin, Hout. split.
    - intros Hlt. apply Hin. lra.
    - intros Hge. apply Hout. apply Qnot_lt_le in Hge. lra. }
  split; [exact H1|]. split; [|split].
  - intros Hout fuel. rewrite wait_for_target_eq, wait_loop_S. cbv zeta.
    unfold enters_loop in Hout. apply Qnot_lt_le in Hout.
    destruct (Qlt_le_dec (now (tick E (tick E w)) - now (tick E w)) (timeout self))
      as [Hlt | _]; [cbn [tick now] in Hlt; lra|].
    eexists. split; [reflexivity|]. apply new_events_app. cbn [snd tick trace].
    by rewrite app_nil_r.
  - intros (Hk & _) Ht Hin. unfold enters_loop in Hin. pose proof (Hk (tick E w)). lra.
  - intros Hin Hrun Hq.
    destruct (wait_for_target_total E self Hrun) as (N & HN).
    exists N. intros fuel Hf.
    destruct (HN fuel tgt verbose kwargs w Hf Hq) as (r & w' & Hrun' & _).
    exists r. assert (fst (wait_for_target E self fuel tgt verbose kwargs w) = Ret r) as Hr
      by (by rewrite Hrun').
    split; [done|]. by apply (H1 fuel r Hr).
Qed.

(** C5 (as amended): for a valid TCP target, when the first test of the loop
    condition passes and the first probe succeeds, [wait_for_target] returns
    [success = true] with [attempts = 1]. *)
Theorem first_probe_success E self fuel tgt host port verbose kwargs w :
  tcp_target tgt host port ->
  enters_loop E self w ->
  fst (check_tcp_port E self host port (loop_entry E w)) = Ret true ->
  exists r w',
    wait_for_target E self (S fuel) tgt verbose kwargs w = (Ret r, w') /\
    success r = true /\ attempts r = 1 /\ target r = tgt /\ error r = None.
Proof.
  intros Ht Hin Hok. rewrite wait_for_target_eq, wait_loop_S. cbv zeta.
  unfold enters_loop in Hin.
  destruct (Qlt_le_dec (now (tick E (tick E w)) - now (tick E w)) (timeout self))
    as [_ | Hge]; [|cbn [tick now] in Hge; lra].
  rewrite (probe_target_tcp_ret E self tgt host port kwargs (now (tick E w)) (0 + 1)
             (tick E (tick E w)) true Ht Hok).
  eexists _, _. split; [reflexivity|]. done.
Qed.


Lemma backoff_default_tail k : (backoff default_waiter (4 + k) == 5)%Q.
Proof.
  induction k as [|k IH].
  - vm_compute. reflexivity.
  - replace (4 + S k)%nat with (S (4 + k)) by lia. cbn [backoff].
    rewrite py_min_Qmin, IH. vm_compute. reflexivity.
Qed.

(** C7: the sleeps of one [wait_for_target] run are, in order, the backoff
    intervals [initial_interval], then [min(interval * 2, max_interval)] after
    each failed attempt; a returned outcome counts one attempt per sleep plus
    the deciding one.  With 0.5 and 5.0 the intervals are 0.5, 1, 2, 4, 5, 5,
    and 5 from then on. *)
Theorem backoff_sleeps :
  (forall E self fuel tgt verbose kwargs w,
     exists n,
       sleeps (new_events w (snd (wait_for_target E self fuel tgt verbose kwargs w)))
         = map (backoff self) (seq 0 n) /\
       forall r, fst (wait_for_target E self fuel tgt verbose kwargs w) = Ret r ->
                 attempts r = Z.of_nat n + decided_in_body r) /\
  (forall self k,
     backoff self 0 = initial_interval self /\
     backoff self (S k) = py_min (backoff self k * 2) (max_interval self) /\
     (backoff self (S k) == Qmin (backoff self k * 2) (max_interval self))%Q) /\
  Forall2 Qeq (map (backoff default_waiter) (seq 0 6)) [1 # 2; 1; 2; 4; 5; 5]%Q /\
  (forall k, (backoff default_waiter (4 + k) == 5)%Q) /\
  Forall2 Qeq
    (sleeps (new_events w0
       (snd (wait_for_target (stub_env 0) default_waiter 20 "down:80" false ∅ w0))))
    [1 # 2; 1; 2; 4; 5; 5; 5; 5; 5]%Q.
Proof.
  split; [|split; [|split; [|split]]].
  - intros E self fuel tgt verbose kwargs w. rewrite wait_for_target_eq.
    destruct (wait_loop_run E self fuel tgt verbose kwargs (now (tick E w)) 0 0%nat
                (tick E w)) as (evs & n & Htr & Hs & _ & Hall).
    exists n. cbn [backoff tick trace] in Htr. rewrite (new_events_app _ _ _ Htr).
    split; [done|]. intros r Hr. destruct (Hall r Hr) as (_ & Ha & _). lia.
  - intros self k. split; [done|]. split; [done|]. cbn [backoff]. apply py_min_Qmin.
  - vm_compute. repeat constructor.
  - apply backoff_default_tail.
  - vm_compute. repeat constructor.
Qed.

(** C8 (as amended): for a malformed non-HTTP target (no colon, or a part
    after the last colon that is not a number), [wait_for_target] returns a
    failed outcome and calls neither [check_tcp_port] nor
    [check_http_endpoint]: the run adds no event, not even the socket with
    which [check_tcp_port] begins.  When the first test of the loop condition
    passes, the outcome is decided in the first turn and its error begins
    with [Invalid target format]. *)
Theorem malformed_target_outcome E self fuel tgt verbose kwargs w :
  malformed tgt ->
  (enters_loop E self w ->
   exists r msg w',
     wait_for_target E self (S fuel) tgt verbose kwargs w = (Ret r, w') /\
     success r = false /\ attempts r = 1 /\
     error r = Some msg /\ String.prefix "Invalid target format" msg = true) /\
  (exists r,
     fst (wait_for_target E self (S fuel) tgt verbose kwargs w) = Ret r /\
     success r = false) /\
  (forall n, new_events w (snd (wait_for_target E self n tgt verbose kwargs w)) = []).
Proof.
  intros Hm.
  assert (forall n,
            wait_for_target E self (S n) tgt verbose kwargs w =
            if Qlt_le_dec (clock_tick E (tick E w)) (timeout self)
            then (Ret (invalid_result tgt (0 + 1)
                         (now (tick E (loop_entry E w)) - now (tick E w))),
                  tick E (loop_entry E w))
            else (Ret (mkWaitResult false tgt 0
                         (now (tick E (loop_entry E w)) - now (tick E w))
                         (Some (timeout_msg E self))), tick E (loop_entry E w))) as Heq.
  { intros n. rewrite wait_for_target_eq, wait_loop_S. cbv zeta.
    rewrite (probe_target_malformed E self tgt kwargs _ _ _ Hm). unfold loop_entry.
    destruct (Qlt_le_dec (now (tick E (tick E w)) - now (tick E w)) (timeout self))
      as [H1 | H1];
      destruct (Qlt_le_dec (clock_tick E (tick E w)) (timeout self)) as [H2 | H2];
      try reflexivity; cbn [tick now] in H1; lra. }
  split; [|split].
  - intros Hin. rewrite Heq. unfold enters_loop in Hin.
    destruct (Qlt_le_dec (clock_tick E (tick E w)) (timeout self)) as [_ | Hge]; [|lra].
    eexists _, _, _. split; [reflexivity|]. by repeat split.
  - rewrite Heq. destruct (Qlt_le_dec _ _); by eexists.
  - intros [|n]; [by apply new_events_app; rewrite app_nil_r|].
    rewrite Heq. apply new_events_app.
    destruct (Qlt_le_dec _ _); cbn [snd loop_entry tick trace]; by rewrite app_nil_r.
Qed.


(** ** The coordinator *)

Lemma collect_all rs acc : collect true (map Ret rs) acc = Ret (acc ++ rs).
Proof.
  revert acc. induction rs as [|r rs IH]; intros acc; cbn [map collect].
  - by rewrite app_nil_r.
  - cbn [negb andb]. rewrite IH. by rewrite <- app_assoc.
Qed.

Lemma collect_any rs acc :
  collect false (map Ret rs) acc = Ret (acc ++ upto_first_success rs).
Proof.
  revert acc. induction rs as [|r rs IH]; intros acc; cbn [map collect upto_first_success].
  - by rewrite app_nil_r.
  - cbn [negb andb]. destruct (success r); [done|].
    rewrite IH. by rewrite <- app_assoc.
Qed.

Lemma upto_first_success_sublist rs : upto_first_success rs `prefix_of` rs.
Proof.
  induction rs as [|r rs IH]; cbn [upto_first_success]; [done|].
  destruct (success r).
  - by exists rs.
  - by apply prefix_cons.
Qed.

Lemma upto_first_success_any rs :
  existsb success (upto_first_success rs) = existsb success rs.
Proof.
  induction rs as [|r rs IH]; cbn [upto_first_success existsb]; [done|].
  destruct (success r) eqn:Hs; cbn [existsb]; rewrite Hs; [done|]. by rewrite IH.
Qed.

Lemma join_time_ge t0 runs :
  (t0 <= join_time t0 runs)%Q /\
  forall run, run ∈ runs -> (now (snd run) <= join_time t0 runs)%Q.
Proof.
  induction runs as [|a runs [IH0 IH]]; cbn [join_time foldr].
  - split; [lra|]. intros run Hin. by apply elem_of_nil in Hin.
  - fold (join_time t0 runs).
    destruct (Qlt_le_dec (join_time t0 runs) (now (snd a))) as [Hlt | Hge].
    + split; [lra|]. intros run [-> | Hin]%elem_of_cons; [lra|].
      specialize (IH run Hin). lra.
    + split; [lra|]. intros run [-> | Hin]%elem_of_cons; [lra|]. by apply IH.
Qed.

Lemma omap_cons {A B} (f : A -> option B) x l :
  omap f (x :: l) = match f x with Some y => y :: omap f l | None => omap f l end.
Proof. reflexivity. Qed.

Lemma lookup_map {A B} (f : A -> B) l i : map f l !! i = f <$> l !! i.
Proof.
  revert i. induction l as [|a l IH]; intros [|i]; cbn [map]; try done. apply IH.
Qed.

Lemma omap_lookup_seq_from {A} (l pre : list A) :
  omap (fun i => (pre ++ l) !! i) (seq (length pre) (length l)) = l.
Proof.
  revert pre. induction l as [|a l IH]; intros pre; [done|].
  cbn [length seq]. rewrite omap_cons, list_lookup_middle by done.
  f_equal. specialize (IH (pre ++ [a])).
  rewrite length_app, Nat.add_1_r, <- app_assoc in IH. exact IH.
Qed.

Lemma omap_lookup_seq {A} (l : list A) : omap (fun i => l !! i) (seq 0 (length l)) = l.
Proof. apply (omap_lookup_seq_from l []). Qed.

Lemma omap_lookup_perm {A} (l : list A) order :
  order ≡ₚ seq 0 (length l) -> omap (fun i => l !! i) order ≡ₚ l.
Proof. intros ->. by rewrite omap_lookup_seq. Qed.

Lemma all_returned (runs : list (res WaitResult * World)) :
  Forall (fun run => exists r, fst run = Ret r) runs ->
  exists rs, map fst runs = map Ret rs.
Proof.
  induction 1 as [|run runs [r Hr] _ (rs & IH)].
  - by exists [].
  - exists (r :: rs). cbn [map]. by rewrite Hr, IH.
Qed.

Lemma done_in_order (runs : list (res WaitResult * World)) rs order :
  map fst runs = map Ret rs ->
  omap (fun i => fst <$> runs !! i) order = map Ret (omap (fun i => rs !! i) order).
Proof.
  intros Hm. induction order as [|i order IH]; [done|].
  rewrite !omap_cons, <- lookup_map, Hm, lookup_map.
  destruct (rs !! i); cbn [fmap option_fmap option_map map]; by rewrite IH.
Qed.

Lemma no_diverged (runs : list (res WaitResult * World)) rs :
  map fst runs = map Ret rs -> existsb (fun run => diverged (fst run)) runs = false.
Proof.
  revert rs. induction runs as [|run runs IH]; intros rs Hm; [done|].
  destruct rs as [|r rs]; [done|]. injection Hm as Hr Hm.
  cbn [existsb]. rewrite Hr. cbn [diverged orb]. by apply (IH rs).
Qed.

(** What [wait_for_multiple] returns when every worker ends with an
    outcome: the outcomes in completion order, all of them in ALL mode, up to
    the first success in ANY mode. *)
Lemma wait_for_multiple_returned E self fuel targets all_mode verbose order w rs :
  targets <> [] ->
  map fst (run_workers E self fuel targets verbose (now w)) = map Ret rs ->
  fst (wait_for_multiple E self fuel targets all_mode verbose order w) =
    Ret (let done := omap (fun i => rs !! i) order in
         if all_mode then done else upto_first_success done).
Proof.
  intros Hne Hm. unfold wait_for_multiple.
  rewrite bool_decide_eq_false_2 by (by destruct targets).
  rewrite (no_diverged _ _ Hm). cbn [fst].
  rewrite (done_in_order _ _ _ Hm).
  destruct all_mode; [apply collect_all | apply collect_any].
Qed.

(** The call ends when the last worker has ended, in either mode, and the
    events of every worker are part of its trace. *)
Lemma wait_for_multiple_joins E self fuel targets all_mode verbose order w run :
  targets <> [] ->
  run ∈ run_workers E self fuel targets verbose (now w) ->
  (now (snd run) <=
   now (snd (wait_for_multiple E self fuel targets all_mode verbose order w)))%Q /\
  forall te, te ∈ trace (snd run) ->
    te ∈ trace (snd (wait_for_multiple E self fuel targets all_mode verbose order w)).
Proof.
  intros Hne Hin. unfold wait_for_multiple.
  rewrite bool_decide_eq_false_2 by (by destruct targets).
  destruct (existsb _ _); cbn [snd now trace].
  all: split; [by apply join_time_ge|].
  all: intros te Hte; apply elem_of_app; right; apply list_elem_of_In, in_concat;
       exists (trace (snd run)); split; [|by apply list_elem_of_In];
       apply in_map_iff; exists run; split; [done | by apply list_elem_of_In].
Qed.

Lemma worker_target E self fuel tgt verbose kwargs w r :
  fst (call_wait_for_target E self fuel tgt verbose kwargs w) = Ret r -> target r = tgt.
Proof.
  unfold call_wait_for_target. destruct (rebinds_parameter kwargs); [done|].
  rewrite wait_for_target_eq. intros Hr.
  destruct (wait_loop_run E self fuel tgt verbose kwargs (now (tick E w)) 0 0%nat (tick E w))
    as (evs & n & _ & _ & _ & Hall).
  by destruct (Hall r Hr).
Qed.

Lemma workers_targets E self fuel targets verbose t0 rs :
  map fst (run_workers E self fuel targets verbose t0) = map Ret rs ->
  map target rs = map fst targets.
Proof.
  revert rs. induction targets as [|[tgt kw] targets IH]; intros rs Hm.
  - by destruct rs.
  - destruct rs as [|r rs]; [done|]. cbn [run_workers map] in Hm.
    injection Hm as Hr Hm. cbn [map fst]. f_equal.
    + by apply worker_target in Hr.
    + by apply IH.
Qed.


(** With a configuration that runs to its end, one number of turns is
    enough for every worker whose probes raise nothing and whose options
    rebind no parameter. *)
Lemma workers_return E self targets verbose t0 :
  runs_to_end E self ->
  Forall (fun tk => probe_quiet E self (fst tk) (snd tk) /\
                    rebinds_parameter (snd tk) = false) targets ->
  exists N, forall fuel, (N <= fuel)%nat ->
    Forall (fun run => exists r, fst run = Ret r)
           (run_workers E self fuel targets verbose t0).
Proof.
  intros Hrun Hkw. destruct (wait_for_target_total E self Hrun) as (N & HN).
  exists N. intros fuel Hf. unfold run_workers.
  induction Hkw as [|[tgt kw] targets [Hq Hk] _ IH]; cbn [map]; constructor; [|exact IH].
  unfold call_wait_for_target. cbn [fst snd] in *. rewrite Hk.
  destruct (HN fuel tgt verbose kw (mkWorld t0 []) Hf Hq) as (r & w' & Hr & _).
  exists r. by rewrite Hr.
Qed.

(** What ALL mode returns when every worker ends with an outcome. *)
Lemma all_mode_returned E self fuel targets verbose order w :
  targets <> [] ->
  order ≡ₚ seq 0 (length targets) ->
  Forall (fun run => exists r, fst run = Ret r)
         (run_workers E self fuel targets verbose (now w)) ->
  exists rs,
    fst (wait_for_multiple E self fuel targets true verbose order w) = Ret rs /\
    length rs = length targets /\
    map Ret rs ≡ₚ map fst (run_workers E self fuel targets verbose (now w)) /\
    map target rs ≡ₚ map fst targets /\
    overall_success false rs = forallb success rs /\
    (overall_success false rs = true <-> Forall (fun r => success r = true) rs) /\
    Forall (fun run =>
              (now (snd run) <=
               now (snd (wait_for_multiple E self fuel targets true verbose order w)))%Q)
           (run_workers E self fuel targets verbose (now w)).
Proof.
  intros Hne Hperm Hall. destruct (all_returned _ Hall) as (rs0 & Hm).
  assert (length rs0 = length targets) as Hlen.
  { apply (f_equal length) in Hm. rewrite !length_map in Hm.
    unfold run_workers in Hm. by rewrite length_map in Hm. }
  assert (omap (fun i => rs0 !! i) order ≡ₚ rs0) as Hp
    by (apply omap_lookup_perm; by rewrite Hlen).
  exists (omap (fun i => rs0 !! i) order).
  split; [by rewrite (wait_for_multiple_returned _ _ _ _ _ _ _ _ rs0)|].
  split; [by rewrite Hp|].
  split; [by rewrite Hm, Hp|].
  split; [by rewrite Hp, (workers_targets _ _ _ _ _ _ _ Hm)|].
  split; [done|].
  split.
  - unfold overall_success, all_success. rewrite forallb_forall, Forall_forall.
    split; intros H r Hr; apply H; by apply list_elem_of_In.
  - apply Forall_forall. intros run Hin.
    by apply (wait_for_multiple_joins E self fuel targets true verbose order w run).
Qed.

(** C2 (as amended): in ALL mode, for a non-empty list of targets,
    [wait_for_multiple] returns one outcome per target, whatever their
    success, after the last loop has ended, and the overall success is the
    conjunction of the success flags, whenever every loop ends with an
    outcome; and every loop does so under a configuration that runs to its
    end, probes that raise nothing and options that rebind no parameter of
    [wait_for_target]. *)
Theorem all_mode_outcomes E self targets verbose order w :
  targets <> [] ->
  order ≡ₚ seq 0 (length targets) ->
  (forall fuel,
     Forall (fun run => exists r, fst run = Ret r)
            (run_workers E self fuel targets verbose (now w)) ->
     exists rs,
       fst (wait_for_multiple E self fuel targets true verbose order w) = Ret rs /\
       length rs = length targets /\
       map Ret rs ≡ₚ map fst (run_workers E self fuel targets verbose (now w)) /\
       map target rs ≡ₚ map fst targets /\
       overall_success false rs = forallb success rs /\
       (overall_success false rs = true <-> Forall (fun r => success r = true) rs) /\
       Forall (fun run =>
                 (now (snd run) <=
                  now (snd (wait_for_multiple E self fuel targets true verbose order w)))%Q)
              (run_workers E self fuel targets verbose (now w))) /\
  (runs_to_end E self ->
   Forall (fun tk => probe_quiet E self (fst tk) (snd tk) /\
                     rebinds_parameter (snd tk) = false) targets ->
   exists N, forall fuel, (N <= fuel)%nat ->
     exists rs,
       fst (wait_for_multiple E self fuel targets true verbose order w) = Ret rs /\
       length rs = length targets /\
       map target rs ≡ₚ map fst targets /\
       overall_success false rs = forallb success rs /\
       (overall_success false rs = true <-> Forall (fun r => success r = true) rs)).
Proof.
  intros Hne Hperm. split.
  - intros fuel Hall. by apply all_mode_returned.
  - intros Hrun Hkw.
    destruct (workers_return E self targets verbose (now w) Hrun Hkw) as (N & HN).
    exists N. intros fuel Hf.
    destruct (all_mode_returned E self fuel targets verbose order w Hne Hperm (HN fuel Hf))
      as (rs & H1 & H2 & _ & H4 & H5 & H6 & _).
    by exists rs.
Qed.

(** C4 (as amended): for a non-empty list of (target, options) pairs, under
    a configuration that runs to its end, probes that raise nothing and
    options that rebind no parameter of [wait_for_target],
    [wait_for_multiple] raises nothing and returns a list of outcomes: one
    per target in ALL mode, some of them in ANY mode.  For the empty list it
    raises [ValueError]. *)
Theorem multiple_returns E self targets all_mode verbose order w :
  (targets <> [] ->
   runs_to_end E self ->
   Forall (fun tk => probe_quiet E self (fst tk) (snd tk) /\
                     rebinds_parameter (snd tk) = false) targets ->
   order ≡ₚ seq 0 (length targets) ->
   exists N, forall fuel, (N <= fuel)%nat ->
     exists rs,
       fst (wait_for_multiple E self fuel targets all_mode verbose order w) = Ret rs /\
       (length rs <= length targets)%nat /\
       (all_mode = true -> length rs = length targets) /\
       Forall (fun r => Ret r ∈ map fst (run_workers E self fuel targets verbose (now w))) rs) /\
  (targets = [] ->
   forall fuel,
     fst (wait_for_multiple E self fuel targets all_mode verbose order w) =
       Raise (ValueError "max_workers must be greater than 0")).
Proof.
  split; [|by intros ->].
  intros Hne Hrun Hkw Hperm.
  destruct (workers_return E self targets verbose (now w) Hrun Hkw) as (N & HN).
  exists N. intros fuel Hf. pose proof (HN fuel Hf) as Hall.
  destruct (all_returned _ Hall) as (rs0 & Hrs).
  assert (length rs0 = length targets) as Hlen.
  { apply (f_equal length) in Hrs. rewrite !length_map in Hrs.
    unfold run_workers in Hrs. by rewrite length_map in Hrs. }
  assert (omap (fun i => rs0 !! i) order ≡ₚ rs0) as Hp
    by (apply omap_lookup_perm; by rewrite Hlen).
  rewrite (wait_for_multiple_returned _ _ _ _ _ _ _ _ rs0) by done. cbv zeta.
  pose proof (upto_first_success_sublist (omap (fun i => rs0 !! i) order)) as Hpre.
  destruct all_mode; (eexists; split; [reflexivity|]).
  - split; [by rewrite Hp, Hlen|]. split; [intros _; by rewrite Hp|].
    rewrite Hp, Hrs. apply Forall_forall. intros r Hr.
    apply list_elem_of_In, in_map, list_elem_of_In, Hr.
  - split; [apply prefix_length in Hpre; pose proof (Permutation_length Hp); lia|].
    split; [done|].
    rewrite Hrs. apply Forall_forall. intros r Hr.
    apply list_elem_of_In, in_map, list_elem_of_In.
    rewrite <- Hp. eapply elem_of_prefix; eauto.
Qed.

(** In ANY mode the outcomes returned are those up to the first success in
    completion order, and their disjunction is that of all the outcomes. *)
Lemma any_mode_results E self fuel targets verbose order w rs :
  targets <> [] ->
  map fst (run_workers E self fuel targets verbose (now w)) = map Ret rs ->
  let done := omap (fun i => rs !! i) order in
  fst (wait_for_multiple E self fuel targets false verbose order w)
    = Ret (upto_first_success done) /\
  overall_success true (upto_first_success done) = existsb success done.
Proof.
  intros Hne Hm. cbv zeta. split.
  - by rewrite (wait_for_multiple_returned _ _ _ _ _ _ _ _ rs).
  - apply upto_first_success_any.
Qed.

(** C1 (the code at the failing input): [up:80] accepts the first connect
    after 0.1 s and [down:81] never does.  In ANY mode the call returns the
    one outcome of [up:80], whose disjunction is true, but only at time 33.4,
    after the overall timeout of 30 s: the loop of [down:81] was not
    cancelled and made its nine connects, the last one at time 28.3. *)
Theorem any_mode_not_cancelled :
  let runs := run_workers sample_env default_waiter 20 two_targets false 0 in
  let out := wait_for_multiple sample_env default_waiter 20 two_targets false false
               [0; 1]%nat w0 in
  is_completion_order runs [0; 1]%nat = true /\
  is_completion_order runs [1; 0]%nat = false /\
  fst out = Ret [mkWaitResult true "up:80" 1 (1 # 10) None] /\
  overall_success true [mkWaitResult true "up:80" 1 (1 # 10) None] = true /\
  (now (snd out) == 334 # 10)%Q /\
  (timeout default_waiter <= now (snd out))%Q /\
  Forall2 Qeq (map fst (List.filter (connects_to "down") (trace (snd out))))
    [0; 6 # 10; 17 # 10; 38 # 10; 79 # 10; 13; 181 # 10; 232 # 10; 283 # 10]%Q.
Proof.
  cbv zeta. split; [by vm_compute|]. split; [by vm_compute|].
  split; [by vm_compute|]. split; [by vm_compute|].
  split; [by vm_compute|]. split; [by vm_compute|].
  vm_compute. repeat constructor.
Qed.

(** ** Counterexamples to the claims as stated *)

(** C2 (counterexample): a port above 65535 makes [connect_ex] raise
    [OverflowError], which nothing catches: in ALL mode the call on the two
    targets raises it and returns no outcome at all. *)
Lemma all_mode_worker_raises :
  mixed_targets <> [] /\
  fst (wait_for_multiple strict_env default_waiter 20 mixed_targets true false
         [0; 1]%nat w0)
    = Raise (OverflowError "connect_ex(): port must be 0-65535.") /\
  ~ (exists rs, fst (wait_for_multiple strict_env default_waiter 20 mixed_targets true
                       false [0; 1]%nat w0) = Ret rs).
Proof.
  split; [discriminate|].
  assert (fst (wait_for_multiple strict_env default_waiter 20 mixed_targets true false
                 [0; 1]%nat w0)
          = Raise (OverflowError "connect_ex(): port must be 0-65535.")) as H
    by (vm_compute; reflexivity).
  split; [exact H|]. intros [rs Hrs]. rewrite H in Hrs. discriminate Hrs.
Qed.

(** C3 (counterexample): with an overall timeout of 0 the outcome has no
    attempt at all, although the port is open. *)
Lemma zero_timeout_no_attempt :
  fst (wait_for_target (stub_env 0) (mkPortWaiter 0 (1 # 2) 5 2) 10 "up:80" false ∅ w0)
    = Ret (mkWaitResult false "up:80" 0 0 (Some "Timeout after 0.0s")) /\
  ~ (1 <= attempts (mkWaitResult false "up:80" 0 0 (Some "Timeout after 0.0s"))).
Proof. split; [by vm_compute | cbn; lia]. Qed.

(** C4 (counterexample): on the empty list the call raises. *)
Lemma empty_targets_raise :
  fst (wait_for_multiple (stub_env 0) default_waiter 10 [] true false [] w0)
    = Raise (ValueError "max_workers must be greater than 0") /\
  ~ (exists rs, fst (wait_for_multiple (stub_env 0) default_waiter 10 [] true false [] w0)
                = Ret rs).
Proof. split; [reflexivity|]. intros [rs H]. discriminate H. Qed.

(** C5 (counterexample): the overall timeout is positive, a tenth of a
    microsecond, and every connect to [up:80] succeeds; but a microsecond
    passes between the two clock reads, the loop body never runs, and the
    outcome is a failure without any attempt. *)
Lemma near_zero_timeout_no_probe :
  let self := mkPortWaiter (1 # 10000000) (1 # 2) 5 2 in
  tcp_target "up:80" "up" 80 /\
  (0 < timeout self)%Q /\
  (forall w, fst (check_tcp_port slow_clock_env self "up" 80 w) = Ret true) /\
  exists r,
    fst (wait_for_target slow_clock_env self 10 "up:80" false ∅ w0) = Ret r /\
    success r = false /\ attempts r = 0 /\
    new_events w0 (snd (wait_for_target slow_clock_env self 10 "up:80" false ∅ w0)) = [].
Proof.
  cbv zeta. split; [split; [reflexivity | exists "80"%string; repeat split]|].
  split; [reflexivity|]. split; [intros w; reflexivity|].
  eexists. split; [vm_compute; reflexivity|]. repeat split.
Qed.


(** C8 (counterexample): the overall timeout is positive, a tenth of a
    microsecond, and the target has no colon; but a microsecond passes
    between the two clock reads, the target is never parsed, and the error is
    the timeout, not the invalid format. *)
Lemma near_zero_timeout_no_parse :
  let self := mkPortWaiter (1 # 10000000) (1 # 2) 5 2 in
  malformed "invalid-target" /\
  (0 < timeout self)%Q /\
  exists r,
    fst (wait_for_target slow_clock_env self 10 "invalid-target" false ∅ w0) = Ret r /\
    success r = false /\ attempts r = 0 /\
    error r = Some (timeout_msg slow_clock_env self) /\
    error r <> Some invalid_target_msg.
Proof.
  cbv zeta. split; [split; [reflexivity | left; reflexivity]|].
  split; [reflexivity|].
  eexists. split; [vm_compute; reflexivity|]. repeat split. discriminate.
Qed.

(** ** The theorems at concrete inputs *)

Lemma make_env_ok cost tk : (0 <= cost)%Q -> (0 <= tk)%Q -> EnvOk (make_env cost tk).
Proof. intros H1 H2. repeat split; intros; cbn; lra. Qed.

Lemma stub_env_ok cost : (0 <= cost)%Q -> EnvOk (stub_env cost).
Proof. intros H. apply make_env_ok; [done | lra]. Qed.

Lemma refuse_too_long_None secs : (secs < 9223372036)%Q -> refuse_too_long secs = None.
Proof. intros H. unfold refuse_too_long. destruct (Qlt_le_dec _ _); [done | lra]. Qed.

Lemma stub_env_quiet cost self tgt kwargs :
  (connection_timeout self < 9223372036)%Q -> probe_quiet (stub_env cost) self tgt kwargs.
Proof.
  intros Hc start att w. destruct (is_http tgt) eqn:Hh.
  - rewrite probe_target_http by done. cbn zeta. eauto.
  - destruct (non_http_cases tgt Hh) as [Hm | (h & p & Ht)].
    + rewrite probe_target_malformed by done. eauto.
    + rewrite (probe_target_tcp _ _ _ _ _ _ _ _ _ Ht), check_tcp_port_eq.
      unfold socket_setup. cbn [stub_env make_env socket_socket settimeout_error connect_ex].
      destruct (Qlt_le_dec (connection_timeout self) 0); [cbn; eauto|].
      rewrite refuse_too_long_None by done. cbn. eauto.
Qed.

(** The default waiter runs to its end on the sample platform. *)
Lemma stub_env_runs cost : (0 <= cost)%Q -> runs_to_end (stub_env cost) default_waiter.
Proof.
  intros Hc. split; [by apply stub_env_ok|]. split; [discriminate|]. split; [discriminate|].
  split.
  - intros k w. cbn [stub_env make_env sleep_error]. apply refuse_too_long_None.
    pose proof (backoff_le default_waiter 5 ltac:(discriminate) ltac:(cbn; lra) k). lra.
  - exists (1 # 2)%Q. split; [reflexivity|]. intros w. cbn. split; lra.
Qed.


Lemma attempts_vs_timeout_witness :
  enters_loop (stub_env 0) default_waiter w0 /\
  fst (wait_for_target (stub_env 0) default_waiter 5 "up:80" false ∅ w0)
    = Ret (mkWaitResult true "up:80" 1 0 None) /\
  1 <= attempts (mkWaitResult true "up:80" 1 0 None).
Proof.
  assert (fst (wait_for_target (stub_env 0) default_waiter 5 "up:80" false ∅ w0)
          = Ret (mkWaitResult true "up:80" 1 0 None)) as H by (vm_compute; reflexivity).
  assert (enters_loop (stub_env 0) default_waiter w0) as Hin by reflexivity.
  split; [exact Hin|]. split; [exact H|].
  exact (proj1 (proj1 (attempts_vs_timeout (stub_env 0) default_waiter "up:80" false ∅ w0)
                  5%nat _ H) Hin).
Defined.

Lemma first_probe_success_witness :
  tcp_target "up:80" "up" 80 /\
  enters_loop (stub_env 0) default_waiter w0 /\
  fst (check_tcp_port (stub_env 0) default_waiter "up" 80 (loop_entry (stub_env 0) w0))
    = Ret true /\
  exists r w',
    wait_for_target (stub_env 0) default_waiter 1 "up:80" false ∅ w0 = (Ret r, w') /\
    success r = true /\ attempts r = 1 /\ target r = "up:80"%string /\ error r = None.
Proof.
  assert (tcp_target "up:80" "up" 80) as Ht
    by (split; [reflexivity | exists "80"%string; repeat split]).
  split; [exact Ht|]. split; [reflexivity|]. split; [reflexivity|].
  exact (first_probe_success (stub_env 0) default_waiter 0 "up:80" "up" 80 false ∅ w0
           Ht eq_refl eq_refl).
Defined.


Lemma backoff_sleeps_witness :
  exists n,
    sleeps (new_events w0
              (snd (wait_for_target sample_env default_waiter 20 "down:80" false ∅ w0)))
      = map (backoff default_waiter) (seq 0 n).
Proof.
  destruct (proj1 backoff_sleeps sample_env default_waiter 20%nat "down:80"%string
              false ∅ w0) as (n & H & _).
  exists n. exact H.
Defined.

Lemma malformed_target_outcome_witness :
  malformed "invalid-target" /\
  enters_loop sample_env default_waiter w0 /\
  exists r msg w',
    wait_for_target sample_env default_waiter 1 "invalid-target" false ∅ w0 = (Ret r, w') /\
    success r = false /\ attempts r = 1 /\
    error r = Some msg /\ String.prefix "Invalid target format" msg = true.
Proof.
  assert (malformed "invalid-target") as Hm by (split; [reflexivity | left; reflexivity]).
  split; [exact Hm|]. split; [reflexivity|].
  exact (proj1 (malformed_target_outcome sample_env default_waiter 0 "invalid-target"
                  false ∅ w0 Hm) eq_refl).
Defined.


Lemma two_workers_return :
  Forall (fun run => exists r, fst run = Ret r)
         (run_workers sample_env default_waiter 20 two_targets false (now w0)).
Proof. vm_compute. repeat constructor; eexists; reflexivity. Qed.

Lemma two_targets_quiet :
  Forall (fun tk => probe_quiet sample_env default_waiter (fst tk) (snd tk) /\
                    rebinds_parameter (snd tk) = false) two_targets.
Proof. repeat constructor; by apply stub_env_quiet. Qed.

Lemma all_mode_outcomes_witness :
  two_targets <> [] /\
  [0; 1]%nat ≡ₚ seq 0 (length two_targets) /\
  runs_to_end sample_env default_waiter /\
  Forall (fun tk => probe_quiet sample_env default_waiter (fst tk) (snd tk) /\
                    rebinds_parameter (snd tk) = false) two_targets /\
  exists N, forall fuel, (N <= fuel)%nat ->
    exists rs,
      fst (wait_for_multiple sample_env default_waiter fuel two_targets true false
             [0; 1]%nat w0) = Ret rs /\
      length rs = length two_targets /\
      map target rs ≡ₚ map fst two_targets /\
      overall_success false rs = forallb success rs /\
      (overall_success false rs = true <-> Forall (fun r => success r = true) rs).
Proof.
  assert (two_targets <> []) as Hne by discriminate.
  assert ([0; 1]%nat ≡ₚ seq 0 (length two_targets)) as Hp by reflexivity.
  assert (runs_to_end sample_env default_waiter) as Hrun
    by (apply stub_env_runs; discriminate).
  split; [exact Hne|]. split; [exact Hp|]. split; [exact Hrun|].
  split; [exact two_targets_quiet|].
  exact (proj2 (all_mode_outcomes sample_env default_waiter two_targets false [0; 1]%nat w0
                  Hne Hp) Hrun two_targets_quiet).
Defined.

Lemma multiple_returns_witness :
  two_targets <> [] /\
  runs_to_end sample_env default_waiter /\
  Forall (fun tk => probe_quiet sample_env default_waiter (fst tk) (snd tk) /\
                    rebinds_parameter (snd tk) = false) two_targets /\
  [0; 1]%nat ≡ₚ seq 0 (length two_targets) /\
  exists N, forall fuel, (N <= fuel)%nat ->
    exists rs,
      fst (wait_for_multiple sample_env default_waiter fuel two_targets false false
             [0; 1]%nat w0) = Ret rs /\
      (length rs <= length two_targets)%nat /\
      (false = true -> length rs = length two_targets) /\
      Forall (fun r => Ret r ∈ map fst (run_workers sample_env default_waiter fuel
                                          two_targets false (now w0))) rs.
Proof.
  assert (two_targets <> []) as Hne by discriminate.
  assert (runs_to_end sample_env default_waiter) as Hrun
    by (apply stub_env_runs; discriminate).
  assert ([0; 1]%nat ≡ₚ seq 0 (length two_targets)) as Hp by reflexivity.
  split; [exact Hne|]. split; [exact Hrun|]. split; [exact two_targets_quiet|].
  split; [exact Hp|].
  exact (proj1 (multiple_returns sample_env default_waiter two_targets false false
                  [0; 1]%nat w0) Hne Hrun two_targets_quiet Hp).
Defined.

(** The two examples of the specification for ALL mode. *)
Example all_mode_success_success :
  overall_success false
    [mkWaitResult true "localhost:5432" 1 (1 # 2) None;
     mkWaitResult true "localhost:6379" 1 (1 # 2) None] = true.
Proof. reflexivity. Qed.

Example all_mode_success_timeout :
  exists rs,
    fst (wait_for_multiple sample_env default_waiter 20 two_targets true false
           [0; 1]%nat w0) = Ret rs /\
    map target rs = ["up:80"; "down:81"]%string /\
    map success rs = [true; false] /\
    overall_success false rs = false.
Proof. eexists. split; [vm_compute; reflexivity|]. by vm_compute. Qed.

(** Why the coordinator returns only under preconditions: a negative
    backoff interval, an interval too long for [time.sleep], an option named
    like a parameter, and a port that the socket layer refuses with
    [OverflowError] each make a worker raise, and [future.result()] raises it
    again in the caller. *)
Example negative_interval_raises :
  fst (wait_for_multiple sample_env (mkPortWaiter 30 (-1) 5 2) 20 two_targets
         true false [0; 1]%nat w0)
    = Raise (ValueError "sleep length must be non-negative").
Proof. vm_compute. reflexivity. Qed.

Example too_long_interval_raises :
  fst (wait_for_multiple sample_env (mkPortWaiter 30 10000000000 10000000000 2) 20
         two_targets true false [0; 1]%nat w0)
    = Raise (OverflowError "timestamp too large to convert to C _PyTime_t").
Proof. vm_compute. reflexivity. Qed.

Example rebound_parameter_raises :
  fst (wait_for_multiple sample_env default_waiter 20
         [("up:80"%string, {["verbose" := VBool true]})] true false [0]%nat w0)
    = Raise (TypeError "wait_for_target() got multiple values for argument").
Proof. vm_compute. reflexivity. Qed.

Example uncaught_socket_error_raises :
  fst (wait_for_multiple strict_env default_waiter 20 [("db:70000"%string, ∅)] true false
         [0]%nat w0)
    = Raise (OverflowError "connect_ex(): port must be 0-65535.").
Proof. vm_compute. reflexivity. Qed.
(** * Further properties *)

(** ** The probes *)

Lemma Qeq_bool_inject_Z a b : Qeq_bool (inject_Z a) (inject_Z b) = true <-> a = b.
Proof.
  rewrite Qeq_bool_iff. unfold Qeq, inject_Z. cbn [Qnum Qden]. lia.
Qed.

(** X1: [check_http_endpoint] with an integer expected status never raises:
    it makes exactly one request, with [{}] in place of missing or empty
    headers, and returns [True] exactly when the request answers with that
    status; an exception of the request gives [False]. *)
Theorem check_http_endpoint_spec E self url (expected : Z) method headers w :
  exists ok,
    fst (check_http_endpoint E self url (VInt expected) method headers w) = Ret ok /\
    (ok = true <->
     fst (http_request E (connection_timeout self) method url
            (if py_truthy headers then headers else VDict ∅) w) = Some expected) /\
    new_events w (snd (check_http_endpoint E self url (VInt expected) method headers w))
      = [(now w, EvRequest method url (if py_truthy headers then headers else VDict ∅))].
Proof.
  unfold check_http_endpoint. cbn [fst snd]. eexists. split; [reflexivity|]. split.
  - destruct (fst (http_request _ _ _ _ _ _)) as [code|]; [|done].
    unfold py_eq. cbn [py_num]. rewrite Qeq_bool_inject_Z.
    split; [by intros -> | by intros [= ->]].
  - apply new_events_app. reflexivity.
Qed.

(** X2: [check_tcp_port] creates one socket and connects at most once, only
    after the socket has been created and configured.  When that fails there
    is no connect: an [OSError] gives [False] and any other exception is
    raised, as [ValueError] is for a negative connection timeout.  After a
    connect it returns [True] exactly when the code is 0, [False] for another
    code or an [OSError], and raises any other exception. *)
Theorem check_tcp_port_spec E self host port w :
  let run := check_tcp_port E self host port w in
  let answer := fst (connect_ex E (connection_timeout self) host port (note EvSocket w)) in
  (match socket_setup E self w with
   | Some _ => new_events w (snd run) = [(now w, EvSocket)]
   | None => new_events w (snd run) = [(now w, EvSocket); (now w, EvConnect host port)]
   end) /\
  (fst run = Ret true <-> socket_setup E self w = None /\ answer = inr 0) /\
  (fst run = Ret false <->
   (exists e, is_OSError e = true /\
              (socket_setup E self w = Some e \/
               socket_setup E self w = None /\ answer = inl e)) \/
   (exists code, socket_setup E self w = None /\ answer = inr code /\ code <> 0)) /\
  (forall e, fst run = Raise e <->
             is_OSError e = false /\
             (socket_setup E self w = Some e \/
              socket_setup E self w = None /\ answer = inl e)) /\
  ((connection_timeout self < 0)%Q -> socket_socket E w = None ->
   run = (Raise (ValueError "Timeout value out of range"), note EvSocket w)).
Proof.
  cbv zeta. rewrite check_tcp_port_eq. cbv zeta.
  split; [|split; [|split; [|split]]].
  - destruct (socket_setup E self w) as [e|].
    + apply new_events_app. by destruct (is_OSError e).
    + apply new_events_app.
      destruct (fst (connect_ex E (connection_timeout self) host port (note EvSocket w)))
        as [e|code];
        [destruct (is_OSError e)|]; cbn [snd record note trace now];
        by rewrite <- app_assoc.
  - destruct (socket_setup E self w) as [e|].
    + split; [by destruct (is_OSError e) | by intros [[=] _]].
    + cbn zeta.
      destruct (fst (connect_ex E (connection_timeout self) host port (note EvSocket w)))
        as [e|code].
      * split; [by destruct (is_OSError e) | by intros [_ [=]]].
      * cbn [fst]. split.
        -- intros [= H]. apply Z.eqb_eq in H. by subst.
        -- by intros [_ [= ->]].
  - destruct (socket_setup E self w) as [e|].
    + destruct (is_OSError e) eqn:He; cbn [fst]; split; try done.
      * intros _. left. exists e. split; [done | by left].
      * intros [(e' & He' & [[= <-] | [[=] _]]) | (code & [=] & _)]. congruence.
    + cbn zeta.
      destruct (fst (connect_ex E (connection_timeout self) host port (note EvSocket w)))
        as [e|code].
      * destruct (is_OSError e) eqn:He; cbn [fst]; split; try done.
        -- intros _. left. exists e. split; [done | by right].
        -- intros [(e' & He' & [[=] | [_ [= <-]]]) | (code & _ & [=] & _)]. congruence.
      * cbn [fst]. split.
        -- intros [= H]. apply Z.eqb_neq in H. right. by exists code.
        -- intros [(e' & _ & [[=] | [_ [=]]]) | (c & _ & [= <-] & Hc)].
           apply Z.eqb_neq in Hc. by rewrite Hc.
  - intros e'. destruct (socket_setup E self w) as [e|].
    + destruct (is_OSError e) eqn:He; cbn [fst]; split.
      * discriminate.
      * intros [He' [[= <-] | [[=] _]]]. congruence.
      * intros [= <-]. split; [done | by left].
      * by intros [_ [[= <-] | [[=] _]]].
    + cbn zeta.
      destruct (fst (connect_ex E (connection_timeout self) host port (note EvSocket w)))
        as [e|code].
      * destruct (is_OSError e) eqn:He; cbn [fst]; split.
        -- discriminate.
        -- intros [He' [[=] | [_ [= <-]]]]. congruence.
        -- intros [= <-]. split; [done | by right].
        -- by intros [_ [[=] | [_ [= <-]]]].
      * cbn [fst]. split; [discriminate | by intros [_ [[=] | [_ [=]]]]].
  - intros Hneg Hs. unfold socket_setup. rewrite Hs.
    destruct (Qlt_le_dec (connection_timeout self) 0) as [_ | Hge]; [reflexivity | lra].
Qed.

(** ** More on the retry loop *)

Lemma http_loop_never_raises E self tgt verbose kwargs start :
  is_http tgt = true ->
  (0 <= initial_interval self)%Q -> (0 <= max_interval self)%Q ->
  (forall k w, sleep_error E (backoff self k) w = None) ->
  forall fuel att k w e,
    fst (wait_loop E self fuel tgt verbose kwargs start att (backoff self k) w) <> Raise e.
Proof.
  intros Hh Hi Hx Hsl. induction fuel as [|fuel IH]; intros att k w e; [discriminate|].
  rewrite wait_loop_S. cbv zeta.
  destruct (Qlt_le_dec (now (tick E w) - start) (timeout self)) as [Hlt | Hge];
    [|discriminate].
  rewrite probe_target_http by done. cbn zeta.
  destruct (match fst (http_request _ _ _ _ _ _) with Some _ => _ | None => _ end);
    [discriminate|].
  pose proof (backoff_ge self 0 ltac:(lra) Hi Hx k) as Hk.
  destruct (Qlt_le_dec (backoff self k) 0) as [Hneg | _]; [lra|].
  rewrite Hsl. apply (IH (att + 1) (S k)).
Qed.

(** X3: whatever the network does, [wait_for_target] on an [http(s)://]
    target raises nothing when the backoff intervals are not negative and
    [time.sleep] accepts each of them. *)
Theorem http_wait_never_raises E self fuel tgt verbose kwargs w :
  is_http tgt = true ->
  (0 <= initial_interval self)%Q -> (0 <= max_interval self)%Q ->
  (forall k w', sleep_error E (backoff self k) w' = None) ->
  forall e, fst (wait_for_target E self fuel tgt verbose kwargs w) <> Raise e.
Proof.
  intros Hh Hi Hx Hsl e. rewrite wait_for_target_eq.
  apply (http_loop_never_raises E self tgt verbose kwargs (now (tick E w)) Hh Hi Hx Hsl
           fuel 0 0%nat).
Qed.

(** X4: when the loop is entered, the socket has been set up and the first
    connect to a well-formed TCP target raises an exception that is neither
    [OSError] nor [ValueError], [wait_for_target] raises it at once: one
    socket, one connect, no retry, no outcome. *)
Theorem socket_error_propagates E self fuel tgt host port verbose kwargs w e :
  tcp_target tgt host port ->
  enters_loop E self w ->
  socket_setup E self (loop_entry E w) = None ->
  fst (connect_ex E (connection_timeout self) host port (note EvSocket (loop_entry E w)))
    = inl e ->
  (forall msg, e <> OSError msg) -> (forall msg, e <> ValueError msg) ->
  fst (wait_for_target E self (S fuel) tgt verbose kwargs w) = Raise e /\
  new_events w (snd (wait_for_target E self (S fuel) tgt verbose kwargs w))
    = [(now (loop_entry E w), EvSocket); (now (loop_entry E w), EvConnect host port)].
Proof.
  intros Ht Hin Hs Ha Hos Hve. rewrite wait_for_target_eq, wait_loop_S. cbv zeta.
  unfold enters_loop in Hin.
  destruct (Qlt_le_dec (now (tick E (tick E w)) - now (tick E w)) (timeout self))
    as [_ | Hge]; [|cbn [tick now] in Hge; lra].
  rewrite (probe_target_tcp _ _ _ _ _ _ _ _ _ Ht), check_tcp_port_eq.
  fold (loop_entry E w). rewrite Hs. cbn zeta. rewrite Ha.
  destruct e as [m|m|m|m]; cbn [fst snd is_OSError];
    try (by destruct (Hos m)); try (by destruct (Hve m));
    (split; [reflexivity|]; apply new_events_app;
     cbn [loop_entry tick record note trace now]; by rewrite <- app_assoc).
Qed.

(** X5: [check_tcp_port] is called inside the [try] that guards the
    parsing, so the [ValueError] with which [settimeout] refuses a negative
    connection timeout is returned as the [Invalid target format] outcome of
    a well-formed TCP target, after one attempt: one socket was created and
    no connect was made. *)
Theorem socket_value_error_reported_as_invalid E self fuel tgt host port verbose kwargs w :
  tcp_target tgt host port ->
  enters_loop E self w ->
  (connection_timeout self < 0)%Q ->
  socket_socket E (loop_entry E w) = None ->
  exists r,
    fst (wait_for_target E self (S fuel) tgt verbose kwargs w) = Ret r /\
    success r = false /\ attempts r = 1 /\
    error r = Some invalid_target_msg /\
    new_events w (snd (wait_for_target E self (S fuel) tgt verbose kwargs w))
      = [(now (loop_entry E w), EvSocket)].
Proof.
  intros Ht Hin Hneg Hs. rewrite wait_for_target_eq, wait_loop_S. cbv zeta.
  unfold enters_loop in Hin.
  destruct (Qlt_le_dec (now (tick E (tick E w)) - now (tick E w)) (timeout self))
    as [_ | Hge]; [|cbn [tick now] in Hge; lra].
  rewrite (probe_target_tcp _ _ _ _ _ _ _ _ _ Ht), check_tcp_port_eq.
  fold (loop_entry E w). unfold socket_setup. rewrite Hs.
  destruct (Qlt_le_dec (connection_timeout self) 0) as [_ | Hge]; [|lra].
  cbn [is_OSError fst snd]. eexists. split; [reflexivity|]. repeat split.
  apply new_events_app. reflexivity.
Qed.

(** X6: every outcome of [wait_for_target] carries the target as given, a
    count of attempts that is not negative, and an error exactly when it is
    not a success; the error is the invalid-target or the timeout message. *)
Theorem outcome_invariants E self fuel tgt verbose kwargs w r :
  fst (wait_for_target E self fuel tgt verbose kwargs w) = Ret r ->
  target r = tgt /\
  0 <= attempts r /\
  (success r = true <-> error r = None) /\
  (error r = None \/ error r = Some invalid_target_msg \/
   error r = Some (timeout_msg E self)).
Proof.
  intros Hr. rewrite wait_for_target_eq in Hr.
  destruct (wait_loop_run E self fuel tgt verbose kwargs (now (tick E w)) 0 0%nat (tick E w))
    as (evs & n & _ & _ & _ & Hall).
  destruct (Hall r Hr) as (Ht & Ha & _). split; [done|]. split.
  { unfold decided_in_body in Ha. destruct (success r); [lia|]. case_bool_decide; lia. }
  destruct (wait_loop_outcome E self tgt verbose kwargs (now (tick E w)) _ _ _ _ _ Hr)
    as [(a & w1 & _ & Hs & He) | [(a & w1 & _ & Hs & He) | (Hs & He & _)]];
    rewrite Hs, He; split; try (split; congruence); eauto.
Qed.

Lemma wait_loop_probes E self tgt verbose kwargs start :
  forall fuel att interval w r,
    fst (wait_loop E self fuel tgt verbose kwargs start att interval w) = Ret r ->
    exists evs,
      trace (snd (wait_loop E self fuel tgt verbose kwargs start att interval w))
        = trace w ++ evs /\
      (length (probes evs) <= length (calls evs))%nat /\
      att + Z.of_nat (length (calls evs)) <= attempts r /\
      (~ malformed tgt -> attempts r = att + Z.of_nat (length (calls evs))) /\
      (~ malformed tgt -> (forall w', socket_setup E self w' = None) ->
       attempts r = att + Z.of_nat (length (probes evs))).
Proof.
  induction fuel as [|fuel IH]; intros att interval w r Hr; [discriminate Hr|].
  rewrite wait_loop_S in *. cbv zeta in *.
  destruct (Qlt_le_dec (now (tick E w) - start) (timeout self)) as [Hlt | Hge].
  2:{ injection Hr as <-. exists []. cbn [snd tick trace]. rewrite app_nil_r.
      split; [done|]. cbn. repeat split; lia. }
  destruct (probe_target_shape E self tgt kwargs start (att + 1) (tick E w))
    as (o & w1 & evs0 & Hp & Htr0 & (_ & _ & _ & Hpc0 & _ & Hone & Hle0) & Hnd & Hinv
        & _ & _ & Hmade).
  cbn [tick trace] in Htr0. rewrite Hp in *.
  destruct o as [[[|]|r']|e|]; try discriminate Hr.
  - injection Hr as <-. exists evs0. cbn [snd tick trace]. split; [done|].
    cbn [attempts]. split; [done|]. split; [lia|]. split.
    + intros Hnm. rewrite (Hone Hnm). lia.
    + intros Hnm Hs. rewrite (Hmade Hnm (Hs _)). lia.
  - cbn zeta in *.
    destruct (after_print_events E verbose (att + 1) tgt interval w1)
      as (pe & Htr & [Hpp Hpc] & _).
    destruct (Qlt_le_dec interval 0); [discriminate Hr|].
    destruct (sleep_error E interval _); [discriminate Hr|].
    destruct (IH _ _ _ _ Hr) as (evs & Hevs & Hpc1 & Hle & Hcalls & Heq).
    exists (evs0 ++ pe ++
            [(now (after_print E verbose (att + 1) tgt interval w1), EvSleep interval)] ++ evs).
    split.
    + rewrite Hevs. unfold after_sleep. cbn [record trace]. rewrite Htr, Htr0.
      by rewrite <- !app_assoc.
    + rewrite !probes_app, !calls_app, Hpp, Hpc, !length_app.
      cbn [length probes calls List.filter snd is_probe is_call app].
      split; [lia|]. split; [lia|]. split.
      * intros Hnm. rewrite (Hcalls Hnm), (Hone Hnm). lia.
      * intros Hnm Hs. rewrite (Heq Hnm Hs), (Hmade Hnm (Hs _)). lia.
  - injection Hr as <-. exists evs0. split; [done|].
    destruct (Hinv _ eq_refl) as [_ ->]. cbn [attempts invalid_result].
    split; [done|]. split; [lia|]. split.
    + intros Hnm. rewrite (Hone Hnm). lia.
    + intros Hnm Hs. rewrite (Hmade Hnm (Hs _)). lia.
Qed.

(** X7: for a target that is not malformed, the [attempts] of an outcome are
    the calls of [check_tcp_port] and [check_http_endpoint] that the run
    made.  The connects and requests are at most as many, since a call of
    [check_tcp_port] can end before its connect; they are as many when the
    socket can always be set up. *)
Theorem attempts_count_probes E self fuel tgt verbose kwargs w r :
  fst (wait_for_target E self fuel tgt verbose kwargs w) = Ret r ->
  let evs := new_events w (snd (wait_for_target E self fuel tgt verbose kwargs w)) in
  (length (probes evs) <= length (calls evs))%nat /\
  Z.of_nat (length (calls evs)) <= attempts r /\
  (~ malformed tgt -> attempts r = Z.of_nat (length (calls evs))) /\
  (~ malformed tgt -> (forall w', socket_setup E self w' = None) ->
   attempts r = Z.of_nat (length (probes evs))).
Proof.
  intros Hr. cbv zeta. rewrite wait_for_target_eq in *.
  destruct (wait_loop_probes E self tgt verbose kwargs (now (tick E w)) _ _ _ _ _ Hr)
    as (evs & Htr & Hpc & Hle & Hcalls & Heq).
  cbn [tick trace] in Htr. rewrite (new_events_app _ _ _ Htr).
  split; [done|]. split; [lia|]. split.
  - intros Hnm. rewrite (Hcalls Hnm). lia.
  - intros Hnm Hs. rewrite (Heq Hnm Hs). lia.
Qed.

Lemma wait_loop_clock E self tgt verbose kwargs start :
  forall fuel att interval w,
    (EnvOk E ->
     (now w <= now (snd (wait_loop E self fuel tgt verbose kwargs start att interval w)))%Q) /\
    forall r,
      fst (wait_loop E self fuel tgt verbose kwargs start att interval w) = Ret r ->
      elapsed r =
        (now (snd (wait_loop E self fuel tgt verbose kwargs start att interval w)) - start)%Q.
Proof.
  induction fuel as [|fuel IH]; intros att interval w.
  { split; [intros _; cbn; lra | intros r [=]]. }
  rewrite wait_loop_S. cbv zeta.
  assert (EnvOk E -> forall w', (now w' <= now (tick E w'))%Q) as Htick.
  { intros (Hk & _) w'. pose proof (Hk w'). cbn [tick now]. lra. }
  destruct (Qlt_le_dec (now (tick E w) - start) (timeout self)) as [Hlt | Hge].
  2:{ split; [|by intros r [= <-]]. intros HE. cbn [snd].
      pose proof (Htick HE w). pose proof (Htick HE (tick E w)). lra. }
  destruct (probe_target_shape E self tgt kwargs start (att + 1) (tick E w))
    as (o & w1 & evs0 & -> & _ & _ & Hnd & Hinv & Hmono & _).
  destruct o as [[[|]|r']|e|]; [| | | |done].
  - split; [|by intros r [= <-]]. intros HE. cbn [snd].
    pose proof (Htick HE w). pose proof (Htick HE w1). specialize (Hmono HE). lra.
  - cbn zeta.
    pose proof (now_after_print E verbose (att + 1) tgt interval w1) as Hnp.
    destruct (Qlt_le_dec interval 0) as [Hneg | Hpos].
    { split; [|intros r [=]]. intros HE. cbn [snd].
      pose proof (Htick HE w). specialize (Hmono HE). lra. }
    destruct (sleep_error E interval _).
    { split; [|intros r [=]]. intros HE. cbn [snd].
      pose proof (Htick HE w). specialize (Hmono HE). lra. }
    destruct (IH (att + 1) (py_min (interval * 2) (max_interval self))
                (after_sleep E interval (after_print E verbose (att + 1) tgt interval w1)))
      as [Hmono' Hel].
    split; [|exact Hel].
    intros HE. specialize (Hmono' HE). specialize (Hmono HE). pose proof (Htick HE w).
    unfold after_sleep in Hmono' at 1. cbn [record now] in Hmono'.
    destruct HE as (_ & _ & _ & Hse).
    pose proof (Hse interval (after_print E verbose (att + 1) tgt interval w1)).
    lra.
  - split.
    + intros HE. cbn [snd]. pose proof (Htick HE w). specialize (Hmono HE). lra.
    + intros r [= <-]. by destruct (Hinv _ eq_refl) as [_ ->].
  - split; [|intros r [=]]. intros HE. cbn [snd].
    pose proof (Htick HE w). specialize (Hmono HE). lra.
Qed.

(** X8: [elapsed] is the time between the first and the last clock read of
    the call; when nothing takes negative time the clock never goes back and
    [elapsed] is not negative. *)
Theorem elapsed_is_duration E self fuel tgt verbose kwargs w :
  (forall r,
     fst (wait_for_target E self fuel tgt verbose kwargs w) = Ret r ->
     elapsed r =
       (now (snd (wait_for_target E self fuel tgt verbose kwargs w)) - now (tick E w))%Q) /\
  (EnvOk E ->
   (now w <= now (snd (wait_for_target E self fuel tgt verbose kwargs w)))%Q /\
   forall r,
     fst (wait_for_target E self fuel tgt verbose kwargs w) = Ret r -> (0 <= elapsed r)%Q).
Proof.
  rewrite wait_for_target_eq.
  destruct (wait_loop_clock E self tgt verbose kwargs (now (tick E w)) fuel 0
              (initial_interval self) (tick E w)) as [Hmono Hel].
  split; [exact Hel|]. intros HE. specialize (Hmono HE).
  assert (now w <= now (tick E w))%Q as Ht.
  { destruct HE as (Hk & _). pose proof (Hk w). cbn [tick now]. lra. }
  split; [lra|].
  intros r Hr. rewrite (Hel r Hr). lra.
Qed.

Lemma wait_loop_overshoot E self tgt verbose kwargs start c s x d :
  probe_cost_at_most E c ->
  (forall secs w, (sleep_extra E secs w <= x)%Q) ->
  clock_cost_at_most E d ->
  (0 <= c)%Q -> (0 <= s)%Q -> (0 <= x)%Q -> (0 <= d)%Q ->
  (initial_interval self <= s)%Q -> (max_interval self <= s)%Q ->
  forall fuel att k w r,
    (now w - start <= timeout self + c + s + x)%Q ->
    fst (wait_loop E self fuel tgt verbose kwargs start att (backoff self k) w) = Ret r ->
    (elapsed r <= timeout self + c + s + x + 2 * d)%Q /\
    (success r = true -> (elapsed r < timeout self + c + d)%Q).
Proof.
  intros Hc Hx Hd H0c H0s H0x H0d Hi Hm.
  induction fuel as [|fuel IH]; intros att k w r Hinv Hr; [discriminate Hr|].
  rewrite wait_loop_S in Hr. cbv zeta in Hr.
  pose proof (Hd w) as Hd1. pose proof (Hd (tick E w)) as Hd2.
  destruct (Qlt_le_dec (now (tick E w) - start) (timeout self)) as [Hlt | Hge].
  2:{ injection Hr as <-. cbn [elapsed success tick now] in *. split; [lra | done]. }
  destruct (probe_target_shape E self tgt kwargs start (att + 1) (tick E w))
    as (o & w1 & evs0 & Hp & _ & _ & Hnd & Hiv & _ & Hcost & _).
  rewrite Hp in Hr. destruct (Hcost c d Hc Hd H0c H0d) as [Hcd Hcok].
  destruct o as [[[|]|r']|e|]; try discriminate Hr.
  - injection Hr as <-. specialize (Hcok true eq_refl). pose proof (Hd w1).
    cbn [elapsed success tick now] in *. split; [lra | intros _; lra].
  - cbn zeta in Hr. specialize (Hcok false eq_refl).
    destruct (Qlt_le_dec (backoff self k) 0); [discriminate Hr|].
    destruct (sleep_error E (backoff self k) _); [discriminate Hr|].
    apply (IH (att + 1) (S k)) in Hr; [done|].
    unfold after_sleep. cbn [record now]. rewrite now_after_print.
    pose proof (backoff_le self s Hi Hm k).
    pose proof (Hx (backoff self k)
                  (after_print E verbose (att + 1) tgt (backoff self k) w1)).
    cbn [tick now] in *. lra.
  - injection Hr as <-. destruct (Hiv _ eq_refl) as [_ ->].
    cbn [elapsed success invalid_result tick now] in *. split; [lra | done].
Qed.

(** X9: with probes of at most [c] seconds, intervals of at most [s],
    oversleeping of at most [x] and clock reads that come at most [d] after
    what went before, an outcome comes at most [c + s + x + 2 d] after the
    overall timeout, and a success less than [c + d] after it. *)
Theorem overshoot_bound E self fuel tgt verbose kwargs w r c s x d :
  probe_cost_at_most E c ->
  (forall secs w', (sleep_extra E secs w' <= x)%Q) ->
  clock_cost_at_most E d ->
  (0 <= c)%Q -> (0 <= s)%Q -> (0 <= x)%Q -> (0 <= d)%Q ->
  (initial_interval self <= s)%Q -> (max_interval self <= s)%Q ->
  (0 <= timeout self)%Q ->
  fst (wait_for_target E self fuel tgt verbose kwargs w) = Ret r ->
  (elapsed r <= timeout self + c + s + x + 2 * d)%Q /\
  (success r = true -> (elapsed r < timeout self + c + d)%Q).
Proof.
  intros Hc Hx Hd H0c H0s H0x H0d Hi Hm Ht Hr. rewrite wait_for_target_eq in Hr.
  apply (wait_loop_overshoot E self tgt verbose kwargs (now (tick E w)) c s x d Hc Hx Hd
           H0c H0s H0x H0d Hi Hm fuel 0 0%nat (tick E w) r); [lra | exact Hr].
Qed.

Lemma wait_loop_prints E self tgt verbose kwargs start :
  forall fuel k w r,
    fst (wait_loop E self fuel tgt verbose kwargs start (Z.of_nat k) (backoff self k) w)
      = Ret r ->
    exists evs n,
      trace (snd (wait_loop E self fuel tgt verbose kwargs start (Z.of_nat k)
                    (backoff self k) w)) = trace w ++ evs /\
      sleeps evs = map (backoff self) (seq k n) /\
      prints evs =
        if verbose
        then map (fun i => retry_msg E (Z.of_nat (S i)) tgt (backoff self i)) (seq k n)
        else [].
Proof.
  induction fuel as [|fuel IH]; intros k w r Hr; [discriminate Hr|].
  rewrite wait_loop_S in *. cbv zeta in *.
  destruct (Qlt_le_dec (now (tick E w) - start) (timeout self)) as [Hlt | Hge].
  2:{ exists [], 0%nat. cbn [snd tick trace]. rewrite app_nil_r. by destruct verbose. }
  destruct (probe_target_shape E self tgt kwargs start (Z.of_nat k + 1) (tick E w))
    as (o & w1 & evs0 & Hp & Htr0 & (Hs0 & Hp0 & _) & _).
  cbn [tick trace] in Htr0. rewrite Hp in *.
  destruct o as [[[|]|r']|e|]; try discriminate Hr;
    try (exists evs0, 0%nat; cbn [snd tick trace]; split; [done|]; split; [done|];
         rewrite Hp0; by destruct verbose).
  cbn zeta in *.
  destruct (after_print_events E verbose (Z.of_nat k + 1) tgt (backoff self k) w1)
    as (pe & Htr & _ & Hps & Hpp & _).
  destruct (Qlt_le_dec (backoff self k) 0); [discriminate Hr|].
  destruct (sleep_error E (backoff self k) _); [discriminate Hr|].
  replace (Z.of_nat k + 1) with (Z.of_nat (S k)) in * by lia.
  change (py_min (backoff self k * 2) (max_interval self)) with (backoff self (S k)) in *.
  destruct (IH _ _ _ Hr) as (evs & n & Hevs & Hsl & Hpr).
  exists (evs0 ++ pe ++
          [(now (after_print E verbose (Z.of_nat (S k)) tgt (backoff self k) w1),
            EvSleep (backoff self k))] ++ evs), (S n).
  split.
  { rewrite Hevs. unfold after_sleep. cbn [record trace]. rewrite Htr, Htr0.
    by rewrite <- !app_assoc. }
  split.
  { rewrite !sleeps_app, Hs0, Hps, Hsl. reflexivity. }
  rewrite !prints_app, Hp0, Hpp, Hpr. by destruct verbose.
Qed.

(** X10: a call that returns an outcome printed nothing when [verbose] is
    off; when it is on it printed one line per sleep, in order, the [i]-th
    with attempt number [i] and the interval about to be slept. *)
Theorem verbose_prints E self fuel tgt verbose kwargs w r :
  fst (wait_for_target E self fuel tgt verbose kwargs w) = Ret r ->
  exists n,
    sleeps (new_events w (snd (wait_for_target E self fuel tgt verbose kwargs w)))
      = map (backoff self) (seq 0 n) /\
    prints (new_events w (snd (wait_for_target E self fuel tgt verbose kwargs w)))
      = if verbose
        then map (fun i => retry_msg E (Z.of_nat (S i)) tgt (backoff self i)) (seq 0 n)
        else [].
Proof.
  intros Hr. rewrite wait_for_target_eq in *.
  destruct (wait_loop_prints E self tgt verbose kwargs (now (tick E w)) fuel 0%nat
              (tick E w) r Hr) as (evs & n & Htr & Hs & Hp).
  exists n. change (Z.of_nat 0) with 0 in Htr.
  change (backoff self 0) with (initial_interval self) in Htr.
  cbn [tick trace] in Htr. by rewrite (new_events_app _ _ _ Htr).
Qed.

(** X11: with a negative initial interval, a first probe that fails is
    followed by [ValueError] from [time.sleep]: the call raises and has slept
    at no time. *)
Theorem negative_interval_stops_the_wait E self fuel tgt verbose kwargs w :
  enters_loop E self w ->
  (initial_interval self < 0)%Q ->
  fst (probe_target E self tgt kwargs (now (tick E w)) (0 + 1) (loop_entry E w))
    = Ret (inl false) ->
  fst (wait_for_target E self (S fuel) tgt verbose kwargs w)
    = Raise (ValueError "sleep length must be non-negative") /\
  sleeps (new_events w (snd (wait_for_target E self (S fuel) tgt verbose kwargs w))) = [].
Proof.
  intros Hin Hneg Hp. rewrite wait_for_target_eq, wait_loop_S. cbv zeta.
  unfold enters_loop in Hin.
  destruct (Qlt_le_dec (now (tick E (tick E w)) - now (tick E w)) (timeout self))
    as [_ | Hge]; [|cbn [tick now] in Hge; lra].
  destruct (probe_target_shape E self tgt kwargs (now (tick E w)) (0 + 1) (tick E (tick E w)))
    as (o & w1 & evs0 & Hq & Htr0 & (Hs0 & _) & _).
  unfold loop_entry in Hp. rewrite Hq in Hp |- *. cbn [fst] in Hp. subst o. cbn zeta.
  destruct (Qlt_le_dec (initial_interval self) 0) as [_ | Hge]; [|lra].
  split; [reflexivity|]. cbn [snd].
  destruct (after_print_events E verbose (0 + 1) tgt (initial_interval self) w1)
    as (pe & Htr & _ & Hs & _).
  cbn [tick trace] in Htr0.
  rewrite (new_events_app w _ (evs0 ++ pe)).
  - by rewrite sleeps_app, Hs, Hs0.
  - rewrite Htr, Htr0. by rewrite <- app_assoc.
Qed.

(** ** More on the coordinator *)

Lemma collect_no_success all_mode done acc :
  Forall (fun d => exists r, d = Ret r /\ success r = false) done ->
  collect all_mode done acc = collect true done acc.
Proof.
  intros H. revert acc. induction H as [|d done (r & -> & Hs) _ IH]; intros acc; [done|].
  cbn [collect]. rewrite Hs, andb_false_r. cbn [negb andb]. apply IH.
Qed.

Lemma done_Forall (P : res WaitResult -> Prop) (runs : list (res WaitResult * World)) order :
  Forall (fun run => P (fst run)) runs ->
  Forall P (omap (fun i => fst <$> runs !! i) order).
Proof.
  intros H. induction order as [|i order IH]; [constructor|].
  rewrite omap_cons. destruct (runs !! i) as [run|] eqn:Hi; cbn [fmap option_fmap option_map];
    [|exact IH].
  constructor; [|exact IH].
  rewrite Forall_forall in H. apply H. by eapply list_elem_of_lookup_2.
Qed.

(** X12: when no worker succeeds, ANY mode does what ALL mode does: the
    same outcomes, all of them, and the same final state. *)
Theorem any_mode_without_success_is_all_mode E self fuel targets verbose order w :
  Forall (fun run => exists r, fst run = Ret r /\ success r = false)
         (run_workers E self fuel targets verbose (now w)) ->
  wait_for_multiple E self fuel targets false verbose order w =
  wait_for_multiple E self fuel targets true verbose order w.
Proof.
  intros H. unfold wait_for_multiple. case_bool_decide; [done|].
  destruct (existsb _ _); [done|]. f_equal.
  apply collect_no_success.
  apply (done_Forall (fun d => exists r, d = Ret r /\ success r = false)). exact H.
Qed.

Lemma collect_any_last done : forall acc rs,
  Forall (fun r => success r = false) acc ->
  collect false done acc = Ret rs ->
  forall i r, rs !! i = Some r -> success r = true -> S i = length rs.
Proof.
  induction done as [|d done IH]; intros acc rs Hacc Hc i r Hi Hs.
  - injection Hc as <-. rewrite Forall_forall in Hacc.
    apply list_elem_of_lookup_2 in Hi. rewrite (Hacc _ Hi) in Hs. discriminate.
  - destruct d as [r0|e|]; cbn [collect negb andb] in Hc; try discriminate Hc.
    destruct (success r0) eqn:Hs0.
    + injection Hc as <-. rewrite length_app. cbn [length].
      apply lookup_app_Some in Hi as [Hi | [Hge Hi]].
      * rewrite Forall_forall in Hacc. apply list_elem_of_lookup_2 in Hi.
        rewrite (Hacc _ Hi) in Hs. discriminate.
      * apply list_lookup_singleton_Some in Hi as [Hi _]. lia.
    + apply (IH (acc ++ [r0]) rs) with (r := r); try done.
      apply Forall_app. split; [done|]. by constructor.
Qed.

(** X13: a list returned in ANY mode has at most one success, and it is
    its last element. *)
Theorem any_mode_success_is_last E self fuel targets verbose order w rs :
  fst (wait_for_multiple E self fuel targets false verbose order w) = Ret rs ->
  forall i r, rs !! i = Some r -> success r = true -> S i = length rs.
Proof.
  unfold wait_for_multiple. case_bool_decide; [discriminate|].
  destruct (existsb _ _); [discriminate|]. cbn [fst]. intros Hc.
  intros i r. by apply (collect_any_last _ [] rs ltac:(constructor) Hc).
Qed.

Lemma existsb_Permutation {A} (f : A -> bool) l l' :
  l ≡ₚ l' -> existsb f l = existsb f l'.
Proof.
  induction 1 as [|x l l' _ IH|x y l|l l' l'' _ IH1 _ IH2]; cbn [existsb];
    [done | by rewrite IH | by rewrite !orb_assoc, (orb_comm (f y)) | congruence].
Qed.

Lemma forallb_Permutation {A} (f : A -> bool) l l' :
  l ≡ₚ l' -> forallb f l = forallb f l'.
Proof.
  induction 1 as [|x l l' _ IH|x y l|l l' l'' _ IH1 _ IH2]; cbn [forallb];
    [done | by rewrite IH | by rewrite !andb_assoc, (andb_comm (f y)) | congruence].
Qed.

(** The verdict of a mode over the list that the mode returns is the verdict
    over all the outcomes. *)
Lemma verdict_of_returned E self fuel targets any_mode verbose order w rs0 :
  targets <> [] ->
  map fst (run_workers E self fuel targets verbose (now w)) = map Ret rs0 ->
  order ≡ₚ seq 0 (length targets) ->
  exists rs,
    fst (wait_for_multiple E self fuel targets (negb any_mode) verbose order w) = Ret rs /\
    overall_success any_mode rs = overall_success any_mode rs0.
Proof.
  intros Hne Hm Hperm.
  assert (length rs0 = length targets) as Hlen.
  { apply (f_equal length) in Hm. rewrite !length_map in Hm.
    unfold run_workers in Hm. by rewrite length_map in Hm. }
  assert (omap (fun i => rs0 !! i) order ≡ₚ rs0) as Hp
    by (apply omap_lookup_perm; by rewrite Hlen).
  rewrite (wait_for_multiple_returned _ _ _ _ _ _ _ _ rs0) by done. cbv zeta.
  eexists. split; [reflexivity|].
  destruct any_mode; cbn [negb overall_success].
  - unfold any_success. rewrite upto_first_success_any. by apply existsb_Permutation.
  - unfold all_success. by apply forallb_Permutation.
Qed.

(** X14: when every worker ends with an outcome, the exit code computed
    from the list that a mode returns is the same for every completion order,
    although the list itself may differ. *)
Theorem verdict_independent_of_completion_order
    E self fuel targets any_mode verbose order1 order2 w :
  targets <> [] ->
  Forall (fun run => exists r, fst run = Ret r)
         (run_workers E self fuel targets verbose (now w)) ->
  order1 ≡ₚ seq 0 (length targets) ->
  order2 ≡ₚ seq 0 (length targets) ->
  exists rs1 rs2,
    fst (wait_for_multiple E self fuel targets (negb any_mode) verbose order1 w) = Ret rs1 /\
    fst (wait_for_multiple E self fuel targets (negb any_mode) verbose order2 w) = Ret rs2 /\
    exit_code any_mode rs1 = exit_code any_mode rs2.
Proof.
  intros Hne Hall H1 H2. destruct (all_returned _ Hall) as (rs0 & Hm).
  destruct (verdict_of_returned E self fuel targets any_mode verbose order1 w rs0 Hne Hm H1)
    as (rs1 & Hr1 & Hv1).
  destruct (verdict_of_returned E self fuel targets any_mode verbose order2 w rs0 Hne Hm H2)
    as (rs2 & Hr2 & Hv2).
  exists rs1, rs2. split; [done|]. split; [done|].
  unfold exit_code. by rewrite Hv1, Hv2.
Qed.

(** X15: [wait_for_multiple] on a single target gives, in either mode, the
    result of the one call in a list, the events of that call, and (when
    nothing takes negative time) its finishing time. *)
Theorem single_target_pool E self fuel tgt kwargs all_mode verbose t0 :
  let w := mkWorld t0 [] in
  let run := call_wait_for_target E self fuel tgt verbose kwargs w in
  let pool := wait_for_multiple E self fuel [(tgt, kwargs)] all_mode verbose [0%nat] w in
  fst pool = match fst run with
             | Ret r => Ret [r]
             | Raise e => Raise e
             | Diverge => Diverge
             end /\
  trace (snd pool) = trace (snd run) /\
  (EnvOk E -> (now (snd pool) == now (snd run))%Q).
Proof.
  cbv zeta. unfold wait_for_multiple. cbn [length bool_decide decide_rel].
  rewrite bool_decide_eq_false_2 by done.
  cbn [run_workers map fst snd existsb now trace app].
  set (run := call_wait_for_target E self fuel tgt verbose kwargs (mkWorld t0 [])).
  rewrite omap_cons. cbn [lookup list_lookup fmap option_fmap option_map omap list_omap].
  split; [|split].
  - destruct (fst run) as [r|e|]; cbn [diverged orb fst collect app]; try done.
    by destruct (negb all_mode && success r).
  - destruct (diverged (fst run) || false); cbn [snd trace concat app]; by rewrite app_nil_r.
  - intros HE.
    assert (t0 <= now (snd run))%Q as Hmono.
    { subst run. unfold call_wait_for_target. destruct (rebinds_parameter kwargs).
      - cbn. lra.
      - rewrite wait_for_target_eq.
        pose proof (proj1 (wait_loop_clock E self tgt verbose kwargs
                             (now (tick E (mkWorld t0 []))) fuel 0 (initial_interval self)
                             (tick E (mkWorld t0 []))) HE) as Hm.
        destruct HE as (Hk & _). pose proof (Hk (mkWorld t0 [])).
        cbn [tick now] in *. lra. }
    destruct (diverged (fst run) || false); cbn [snd now join_time foldr];
      destruct (Qlt_le_dec t0 (now (snd run))); lra.
Qed.

(** X16: when in completion order a worker that raised comes before any
    early return (ALL mode, or ANY mode with only failures before it),
    [wait_for_multiple] raises that exception and returns no outcome. *)
Theorem worker_error_is_raised E self fuel targets all_mode verbose order w pre e rest :
  targets <> [] ->
  Forall (fun run => fst run <> Diverge) (run_workers E self fuel targets verbose (now w)) ->
  omap (fun i => fst <$> run_workers E self fuel targets verbose (now w) !! i) order
    = map Ret pre ++ Raise e :: rest ->
  all_mode = true \/ Forall (fun r => success r = false) pre ->
  fst (wait_for_multiple E self fuel targets all_mode verbose order w) = Raise e.
Proof.
  intros Hne Hnd Hdone Hpre. unfold wait_for_multiple.
  rewrite bool_decide_eq_false_2 by (by destruct targets).
  assert (existsb (fun run => diverged (fst run))
            (run_workers E self fuel targets verbose (now w)) = false) as ->.
  { apply not_true_is_false. intros (run & Hin & Hd)%existsb_exists.
    rewrite Forall_forall in Hnd. apply list_elem_of_In, Hnd in Hin.
    by destruct (fst run). }
  cbn [fst]. rewrite Hdone. clear Hdone. revert Hpre.
  generalize (@nil WaitResult) as acc.
  induction pre as [|r pre IH]; intros acc Hpre; [done|].
  cbn [map app collect].
  assert (negb all_mode && success r = false) as ->.
  { destruct Hpre as [-> | Hf]; [done|]. apply Forall_cons in Hf as [Hr _].
    by rewrite Hr, andb_false_r. }
  apply IH. destruct Hpre as [-> | Hf]; [by left | right].
  by apply Forall_cons in Hf as [_ Hf].
Qed.

Lemma collect_first_success pre r rest acc :
  Forall (fun r => success r = false) pre ->
  success r = true ->
  collect false (map Ret pre ++ Ret r :: rest) acc = Ret (acc ++ pre ++ [r]).
Proof.
  intros Hpre Hs. revert acc. induction Hpre as [|r0 pre Hr0 _ IH]; intros acc.
  - cbn [map app collect negb andb]. by rewrite Hs.
  - cbn [map app collect negb andb]. rewrite Hr0.
    rewrite IH. by rewrite <- (app_assoc acc [r0]).
Qed.

(** X17: in ANY mode the first success in completion order ends the
    collection: the outcomes up to it are returned, and what the later
    workers returned or raised is not looked at. *)
Theorem any_mode_first_success_wins E self fuel targets verbose order w pre r rest :
  targets <> [] ->
  Forall (fun run => fst run <> Diverge) (run_workers E self fuel targets verbose (now w)) ->
  omap (fun i => fst <$> run_workers E self fuel targets verbose (now w) !! i) order
    = map Ret pre ++ Ret r :: rest ->
  Forall (fun r => success r = false) pre ->
  success r = true ->
  fst (wait_for_multiple E self fuel targets false verbose order w) = Ret (pre ++ [r]).
Proof.
  intros Hne Hnd Hdone Hpre Hs. unfold wait_for_multiple.
  rewrite bool_decide_eq_false_2 by (by destruct targets).
  assert (existsb (fun run => diverged (fst run))
            (run_workers E self fuel targets verbose (now w)) = false) as ->.
  { apply not_true_is_false. intros (run & Hin & Hd)%existsb_exists.
    rewrite Forall_forall in Hnd. apply list_elem_of_In, Hnd in Hin.
    by destruct (fst run). }
  cbn [fst]. rewrite Hdone. by apply collect_first_success.
Qed.

(** ** The command line *)

Lemma split1_first sep k v :
  occurs sep k = false -> split1 sep (k +:+ String sep v) = [k; v].
Proof.
  induction k as [|c k IH]; simpl.
  - intros _. by rewrite Ascii.eqb_refl.
  - intros [Hc Hk]%orb_false_iff. rewrite Hc, (IH Hk). reflexivity.
Qed.

Lemma occurs_split sep h :
  occurs sep h = true -> exists k v, h = k +:+ String sep v /\ occurs sep k = false.
Proof.
  induction h as [|c h IH]; simpl; [discriminate|].
  destruct (Ascii.eqb_spec c sep) as [-> | Hne].
  - intros _. by exists EmptyString, h.
  - simpl. intros (k & v & -> & Hk)%IH. exists (String c k), v. split; [done|].
    simpl. rewrite Hk. by apply Ascii.eqb_neq in Hne as ->.
Qed.

Lemma parse_headers_from_cons d h rest w :
  parse_headers_from d (h :: rest) w =
  if occurs ":" h then
    match split1 ":" h with
    | [k; v] => parse_headers_from (<[str_strip k := str_strip v]> d) rest w
    | [] | [_] => (Raise (ValueError "not enough values to unpack (expected 2)"), w)
    | _ => (Raise (ValueError "too many values to unpack (expected 2)"), w)
    end
  else parse_headers_from d rest w.
Proof.
  cbn [parse_headers_from]. destruct (occurs ":" h); [|done].
  unfold bind, unpack2. by destruct (split1 ":" h) as [|a [|b [|c t]]].
Qed.

Lemma parse_headers_from_snoc d l h w :
  parse_headers_from d (l ++ [h]) w =
  match parse_headers_from d l w with
  | (Ret d0, w') => parse_headers_from d0 [h] w'
  | other => other
  end.
Proof.
  revert d w. induction l as [|x l IH]; intros d w; [done|].
  rewrite <- app_comm_cons, !(parse_headers_from_cons d x).
  destruct (occurs ":" x); [|apply IH].
  destruct (split1 ":" x) as [|a [|b [|c t]]]; first [done | apply IH].
Qed.

Lemma parse_headers_from_ok d header w :
  exists d', parse_headers_from d header w = (Ret d', w).
Proof.
  revert d. induction header as [|h header IH]; intros d; [by exists d|].
  rewrite parse_headers_from_cons. destruct (occurs ":" h) eqn:Hc; [|apply IH].
  destruct (occurs_split _ _ Hc) as (k & v & -> & Hk).
  rewrite (split1_first _ _ _ Hk). apply IH.
Qed.

Lemma parse_headers_from_skip d l1 h l2 w :
  occurs ":" h = false ->
  parse_headers_from d (l1 ++ h :: l2) w = parse_headers_from d (l1 ++ l2) w.
Proof.
  intros Hh. revert d. induction l1 as [|x l1 IH]; intros d.
  - cbn [app]. by rewrite parse_headers_from_cons, Hh.
  - rewrite <- !app_comm_cons, !(parse_headers_from_cons d x).
    destruct (occurs ":" x); [|apply IH].
    destruct (split1 ":" x) as [|a [|b [|c t]]]; first [done | apply IH].
Qed.

(** X18: the header loop of [main] never raises and touches nothing else;
    a [--header] value without a colon is ignored wherever it stands. *)
Theorem parse_headers_never_fails header w :
  (exists d, parse_headers header w = (Ret d, w)) /\
  (forall l1 h l2,
     header = l1 ++ h :: l2 -> occurs ":" h = false ->
     parse_headers header w = parse_headers (l1 ++ l2) w).
Proof.
  split; [apply parse_headers_from_ok|].
  intros l1 h l2 -> Hh. by apply parse_headers_from_skip.
Qed.

(** X19: a [--header] value [k:v] is split at its first colon and sets the
    stripped [k] to the stripped [v] on top of the earlier values: the last
    value for a key wins and the other keys are kept. *)
Theorem parse_headers_last_wins header k v w :
  occurs ":" k = false ->
  exists d0 d,
    parse_headers header w = (Ret d0, w) /\
    parse_headers (header ++ [k +:+ String ":" v]) w = (Ret d, w) /\
    d = <[str_strip k := str_strip v]> d0 /\
    d !! str_strip k = Some (str_strip v) /\
    (forall k', k' <> str_strip k -> d !! k' = d0 !! k').
Proof.
  intros Hk. destruct (parse_headers_from_ok ∅ header w) as (d0 & Hd0).
  exists d0, (<[str_strip k := str_strip v]> d0). split; [done|].
  split; [|split; [done|split]].
  - unfold parse_headers in *. rewrite parse_headers_from_snoc, Hd0.
    rewrite parse_headers_from_cons, occurs_app. cbn [occurs].
    rewrite Ascii.eqb_refl, orb_true_r, (split1_first _ _ _ Hk). reflexivity.
  - apply lookup_insert_eq.
  - intros k' Hne. by rewrite lookup_insert_ne.
Qed.

Lemma str_lstrip_idem s : str_lstrip (str_lstrip s) = str_lstrip s.
Proof.
  induction s as [|c s IH]; [done|]. cbn [str_lstrip].
  destruct (is_str_space c) eqn:Hc; [done|]. cbn [str_lstrip]. by rewrite Hc.
Qed.

Lemma str_rstrip_idem s : str_rstrip (str_rstrip s) = str_rstrip s.
Proof.
  induction s as [|c s IH]; [done|]. cbn [str_rstrip].
  destruct (str_rstrip s) as [|a r] eqn:Hr.
  - destruct (is_str_space c) eqn:Hc; [done|]. cbn [str_rstrip]. by rewrite Hc.
  - change (str_rstrip (String c (String a r))) with
      (match str_rstrip (String a r) with
       | EmptyString => if is_str_space c then EmptyString else String c EmptyString
       | r0 => String c r0
       end).
    by rewrite IH.
Qed.

Lemma str_strip_comm s : str_rstrip (str_lstrip s) = str_lstrip (str_rstrip s).
Proof.
  induction s as [|c s IH]; [done|]. cbn [str_lstrip].
  destruct (is_str_space c) eqn:Hc.
  - rewrite IH. cbn [str_rstrip]. destruct (str_rstrip s) as [|a r];
      rewrite ?Hc; cbn [str_lstrip]; by rewrite ?Hc.
  - cbn [str_rstrip]. destruct (str_rstrip s) as [|a r]; rewrite ?Hc;
      cbn [str_lstrip]; by rewrite Hc.
Qed.

Lemma str_strip_idem s : str_strip (str_strip s) = str_strip s.
Proof.
  unfold str_strip. by rewrite str_strip_comm, str_lstrip_idem, str_rstrip_idem.
Qed.

Lemma parse_headers_from_stripped header : forall d w d' w',
  parse_headers_from d header w = (Ret d', w') ->
  (forall k v, d !! k = Some v -> str_strip k = k /\ str_strip v = v) ->
  forall k v, d' !! k = Some v -> str_strip k = k /\ str_strip v = v.
Proof.
  induction header as [|h header IH]; intros d w d' w' Hp Hinv.
  - by injection Hp as <- _.
  - rewrite parse_headers_from_cons in Hp.
    destruct (occurs ":" h); [|by eapply IH].
    destruct (split1 ":" h) as [|a [|b [|c t]]]; try discriminate Hp.
    eapply IH; [exact Hp|]. intros k v Hkv.
    destruct (decide (k = str_strip a)) as [-> | Hne].
    + rewrite lookup_insert_eq in Hkv. injection Hkv as <-.
      by rewrite !str_strip_idem.
    + rewrite lookup_insert_ne in Hkv by done. by apply Hinv.
Qed.

(** X20: no key and no value of the parsed headers has white space at its
    ends. *)
Theorem parse_headers_stripped header w d :
  fst (parse_headers header w) = Ret d ->
  forall k v, d !! k = Some v -> str_strip k = k /\ str_strip v = v.
Proof.
  intros Hp. destruct (parse_headers header w) as [r w'] eqn:Hrun.
  cbn [fst] in Hp. subst r.
  apply (parse_headers_from_stripped header ∅ w d w' Hrun).
  intros k v Hkv. by rewrite lookup_empty in Hkv.
Qed.

Lemma cli_kwargs_get es m d :
  dict_get (cli_kwargs es m d) "expected_status" (VInt 200) = VInt es /\
  dict_get (cli_kwargs es m d) "method" (VStr "GET") = VStr m /\
  dict_get (cli_kwargs es m d) "headers" VNone
    = (if bool_decide (d = ∅) then VNone else VDict d) /\
  rebinds_parameter (cli_kwargs es m d) = false.
Proof.
  unfold dict_get, rebinds_parameter, cli_kwargs. split; [|split; [|split]].
  - by rewrite lookup_insert_ne, lookup_insert_ne, lookup_insert_eq.
  - by rewrite lookup_insert_ne, lookup_insert_eq.
  - by rewrite lookup_insert_eq.
  - rewrite !bool_decide_eq_false_2; [done|..];
      rewrite !lookup_insert_ne, lookup_empty by done; by intros [? ?].
Qed.

Lemma print_all_spec lines w :
  exists w',
    print_all lines w = (Ret tt, w') /\
    (now w' == now w)%Q /\
    exists evs, trace w' = trace w ++ evs /\
                prints evs = lines /\ probes evs = [] /\ sleeps evs = [].
Proof.
  revert w. induction lines as [|l lines IH]; intros w.
  - exists w. split; [done|]. split; [lra|]. exists []. by rewrite app_nil_r.
  - cbn [print_all]. unfold bind, print.
    destruct (IH (record (EvPrint l) 0 w)) as (w' & Hrun & Hnow & evs & Htr & Hp & Hb & Hs).
    exists w'. split; [done|]. split; [cbn [record now] in Hnow; lra|].
    exists ((now w, EvPrint l) :: evs). split.
    + rewrite Htr. cbn [record trace]. by rewrite <- app_assoc.
    + change ((now w, EvPrint l) :: evs) with ([(now w, EvPrint l)] ++ evs).
      rewrite prints_app, probes_app, sleeps_app, Hp, Hb, Hs. done.
Qed.

(** What [report] leaves behind: it returns, and only adds events. *)
Lemma report_returns E json_dumps a results w :
  fst (report E json_dumps a results w) = Ret tt /\
  exists more, trace (snd (report E json_dumps a results w)) = trace w ++ more.
Proof.
  unfold report. destruct (arg_json_output a); [split; [done | by eexists [_]]|].
  destruct (negb _ || negb _).
  - destruct (print_all_spec (map (result_line E (arg_verbose a)) results) w)
      as (w' & -> & _ & evs & Htr & _). split; [done | by exists evs].
  - split; [done|]. exists []. by rewrite app_nil_r.
Qed.


Lemma main_eq E json_dumps fuel order a w d :
  parse_headers (arg_header a) w = (Ret d, w) ->
  main E json_dumps fuel order a w =
  match main_results E fuel order a
          (cli_kwargs (arg_expected_status a) (arg_method a) d) w with
  | (Ret rs, w1) => (Ret (exit_code (arg_any_mode a) rs), snd (report E json_dumps a rs w1))
  | (Raise e, w1) => (Raise e, w1)
  | (Diverge, w1) => (Diverge, w1)
  end.
Proof.
  intros Hd. unfold main. unfold bind at 1. rewrite Hd. unfold bind at 1.
  destruct (main_results _ _ _ _ _ _) as [[rs|e|] w1]; try reflexivity.
  unfold bind. pose proof (report_returns E json_dumps a rs w1) as [Hr _].
  destruct (report E json_dumps a rs w1) as [r w2].
  cbn [fst] in Hr. by subst r.
Qed.

Lemma main_results_single E fuel order a kwargs w t :
  arg_targets a = [t] ->
  main_results E fuel order a kwargs w =
  match call_wait_for_target E (cli_waiter a) fuel t (arg_verbose a) kwargs w with
  | (Ret r, w1) => (Ret [r], w1)
  | (Raise e, w1) => (Raise e, w1)
  | (Diverge, w1) => (Diverge, w1)
  end.
Proof.
  intros Ht. unfold main_results. rewrite Ht. unfold bind.
  by destruct (call_wait_for_target _ _ _ _ _ _ _) as [[r|e|] w1].
Qed.


(** X23: for a single HTTP target, when the loop is entered, the first
    event of [main] is the request with the method of the command line and
    the parsed headers (an empty dictionary when there is none). *)
Theorem main_request_carries_options E json_dumps fuel order a w t :
  arg_targets a = [t] ->
  is_http t = true ->
  enters_loop E (cli_waiter a) w ->
  fuel <> 0%nat ->
  exists d rest,
    parse_headers (arg_header a) w = (Ret d, w) /\
    new_events w (snd (main E json_dumps fuel order a w))
      = (now (loop_entry E w), EvRequest (VStr (arg_method a)) t (VDict d)) :: rest.
Proof.
  intros Ht Hh Hin Hf. destruct fuel as [|fuel]; [done|].
  destruct (parse_headers_from_ok ∅ (arg_header a) w) as (d & Hd).
  exists d.
  set (kwargs := cli_kwargs (arg_expected_status a) (arg_method a) d).
  destruct (cli_kwargs_get (arg_expected_status a) (arg_method a) d)
    as (_ & Hm & Hhd & Hrb).
  pose proof (probe_target_http E (cli_waiter a) t kwargs (now (tick E w)) (0 + 1)
                (loop_entry E w) Hh) as Hp.
  cbv zeta in Hp. fold kwargs in Hm, Hhd, Hrb. rewrite Hm, Hhd in Hp.
  assert ((if py_truthy (if bool_decide (d = ∅) then VNone else VDict d)
           then (if bool_decide (d = ∅) then VNone else VDict d) else VDict ∅) = VDict d)
    as Hdict.
  { case_bool_decide as He; [by subst|]. cbn [py_truthy]. by rewrite bool_decide_eq_false_2. }
  rewrite Hdict in Hp.
  destruct (first_event E (cli_waiter a) fuel t (arg_verbose a) kwargs w _ _ _ Hin Hp
              eq_refl) as (rest & Hrest).
  rewrite (main_eq _ _ _ _ _ _ _ Hd), (main_results_single _ _ _ _ _ _ _ Ht).
  unfold call_wait_for_target. fold kwargs. rewrite Hrb.
  destruct (wait_for_target E (cli_waiter a) (S fuel) t (arg_verbose a) kwargs w)
    as [[r|e|] w1]; cbn [snd] in *; try (by exists rest).
  unfold new_events in Hrest.
  destruct (report_returns E json_dumps a [r] w1) as (_ & more & Hmore).
  exists (rest ++ more). unfold new_events. rewrite Hmore.
  assert (length (trace w) <= length (trace w1))%nat as Hlen.
  { destruct (decide (length (trace w) <= length (trace w1))%nat); [done|].
    rewrite drop_ge in Hrest by lia. discriminate Hrest. }
  rewrite drop_app_le by done. by rewrite Hrest.
Qed.


(** ** The further theorems at concrete inputs *)

Lemma down_is_tcp_target : tcp_target "down:80" "down" 80.
Proof. split; [reflexivity | exists "80"%string; repeat split]. Qed.

Lemma check_tcp_port_spec_witness :
  (connection_timeout (mkPortWaiter 30 (1 # 2) 5 (-1)) < 0)%Q /\
  socket_socket sample_env w0 = None /\
  check_tcp_port sample_env (mkPortWaiter 30 (1 # 2) 5 (-1)) "up" 80 w0
    = (Raise (ValueError "Timeout value out of range"), note EvSocket w0).
Proof.
  split; [reflexivity|]. split; [reflexivity|].
  destruct (check_tcp_port_spec sample_env (mkPortWaiter 30 (1 # 2) 5 (-1)) "up" 80 w0)
    as (_ & _ & _ & _ & H).
  apply H; reflexivity.
Defined.

Lemma http_wait_never_raises_witness :
  is_http "http://down/x" = true /\
  (0 <= initial_interval default_waiter)%Q /\ (0 <= max_interval default_waiter)%Q /\
  (forall k w', sleep_error sample_env (backoff default_waiter k) w' = None) /\
  forall e,
    fst (wait_for_target sample_env default_waiter 20 "http://down/x" false ∅ w0) <> Raise e.
Proof.
  assert (forall k w', sleep_error sample_env (backoff default_waiter k) w' = None) as Hsl.
  { destruct (stub_env_runs (1 # 10) ltac:(discriminate)) as (_ & _ & _ & H & _). exact H. }
  split; [reflexivity|]. split; [discriminate|]. split; [discriminate|].
  split; [exact Hsl|].
  exact (http_wait_never_raises sample_env default_waiter 20 "http://down/x" false ∅ w0
           eq_refl ltac:(discriminate) ltac:(discriminate) Hsl).
Defined.

Lemma socket_error_propagates_witness :
  tcp_target "db:70000" "db" 70000 /\
  enters_loop strict_env default_waiter w0 /\
  socket_setup strict_env default_waiter (loop_entry strict_env w0) = None /\
  fst (wait_for_target strict_env default_waiter 1 "db:70000" false ∅ w0)
    = Raise (OverflowError "connect_ex(): port must be 0-65535.") /\
  new_events w0 (snd (wait_for_target strict_env default_waiter 1 "db:70000" false ∅ w0))
    = [(now (loop_entry strict_env w0), EvSocket);
       (now (loop_entry strict_env w0), EvConnect "db" 70000)].
Proof.
  assert (tcp_target "db:70000" "db" 70000) as Ht
    by (split; [reflexivity | exists "70000"%string; repeat split]).
  split; [exact Ht|]. split; [reflexivity|]. split; [reflexivity|].
  exact (socket_error_propagates strict_env default_waiter 0 "db:70000" "db" 70000 false ∅
           w0 _ Ht eq_refl eq_refl eq_refl ltac:(discriminate) ltac:(discriminate)).
Defined.

Lemma socket_value_error_witness :
  tcp_target "up:80" "up" 80 /\
  enters_loop sample_env (mkPortWaiter 30 (1 # 2) 5 (-1)) w0 /\
  (connection_timeout (mkPortWaiter 30 (1 # 2) 5 (-1)) < 0)%Q /\
  socket_socket sample_env (loop_entry sample_env w0) = None /\
  exists r,
    fst (wait_for_target sample_env (mkPortWaiter 30 (1 # 2) 5 (-1)) 1 "up:80" false ∅ w0)
      = Ret r /\
    success r = false /\ attempts r = 1 /\
    error r = Some invalid_target_msg /\
    new_events w0
      (snd (wait_for_target sample_env (mkPortWaiter 30 (1 # 2) 5 (-1)) 1 "up:80" false ∅ w0))
      = [(now (loop_entry sample_env w0), EvSocket)].
Proof.
  assert (tcp_target "up:80" "up" 80) as Ht
    by (split; [reflexivity | exists "80"%string; repeat split]).
  split; [exact Ht|]. split; [reflexivity|]. split; [reflexivity|]. split; [reflexivity|].
  exact (socket_value_error_reported_as_invalid sample_env (mkPortWaiter 30 (1 # 2) 5 (-1)) 0
           "up:80" "up" 80 false ∅ w0 Ht eq_refl eq_refl eq_refl).
Defined.

Lemma outcome_invariants_witness :
  exists r,
    fst (wait_for_target (stub_env 0) default_waiter 20 "down:80" false ∅ w0) = Ret r /\
    target r = "down:80"%string /\
    0 <= attempts r /\
    (success r = true <-> error r = None) /\
    (error r = None \/ error r = Some invalid_target_msg \/
     error r = Some (timeout_msg (stub_env 0) default_waiter)).
Proof.
  eexists. split; [vm_compute; reflexivity|].
  apply (outcome_invariants (stub_env 0) default_waiter 20 "down:80" false ∅ w0).
  vm_compute. reflexivity.
Defined.

Lemma attempts_count_probes_witness :
  ~ malformed "down:80" /\
  (forall w', socket_setup (stub_env 0) default_waiter w' = None) /\
  exists r,
    fst (wait_for_target (stub_env 0) default_waiter 20 "down:80" false ∅ w0) = Ret r /\
    attempts r =
      Z.of_nat (length (calls (new_events w0
        (snd (wait_for_target (stub_env 0) default_waiter 20 "down:80" false ∅ w0))))) /\
    attempts r =
      Z.of_nat (length (probes (new_events w0
        (snd (wait_for_target (stub_env 0) default_waiter 20 "down:80" false ∅ w0))))).
Proof.
  assert (~ malformed "down:80") as Hnm
    by exact (tcp_target_not_malformed _ _ _ down_is_tcp_target).
  assert (forall w', socket_setup (stub_env 0) default_waiter w' = None) as Hs
    by (intros w'; reflexivity).
  split; [exact Hnm|]. split; [exact Hs|]. eexists. split; [vm_compute; reflexivity|].
  destruct (attempts_count_probes (stub_env 0) default_waiter 20 "down:80" false ∅ w0 _
              ltac:(vm_compute; reflexivity)) as (_ & _ & Hcalls & Hprobes).
  split; [exact (Hcalls Hnm) | exact (Hprobes Hnm Hs)].
Defined.

Lemma overshoot_bound_witness :
  probe_cost_at_most sample_env (1 # 10) /\
  (forall secs w', (sleep_extra sample_env secs w' <= 0)%Q) /\
  clock_cost_at_most sample_env 0 /\
  (0 <= timeout default_waiter)%Q /\
  exists r,
    fst (wait_for_target sample_env default_waiter 20 "down:80" false ∅ w0) = Ret r /\
    (elapsed r <= timeout default_waiter + (1 # 10) + 5 + 0 + 2 * 0)%Q /\
    (success r = true -> (elapsed r < timeout default_waiter + (1 # 10) + 0)%Q).
Proof.
  assert (probe_cost_at_most sample_env (1 # 10)) as Hc
    by (split; intros; cbn; discriminate).
  assert (forall secs w', (sleep_extra sample_env secs w' <= 0)%Q) as Hx
    by (intros; cbn; discriminate).
  assert (clock_cost_at_most sample_env 0) as Hd by (intros w'; cbn; discriminate).
  split; [exact Hc|]. split; [exact Hx|]. split; [exact Hd|]. split; [discriminate|].
  eexists. split; [vm_compute; reflexivity|].
  apply (overshoot_bound sample_env default_waiter 20 "down:80" false ∅ w0 _
           (1 # 10) 5 0 0 Hc Hx Hd); try discriminate.
  vm_compute. reflexivity.
Defined.

Lemma verbose_prints_witness :
  exists r n,
    fst (wait_for_target sample_env default_waiter 20 "down:80" true ∅ w0) = Ret r /\
    sleeps (new_events w0
              (snd (wait_for_target sample_env default_waiter 20 "down:80" true ∅ w0)))
      = map (backoff default_waiter) (seq 0 n) /\
    prints (new_events w0
              (snd (wait_for_target sample_env default_waiter 20 "down:80" true ∅ w0)))
      = map (fun i => retry_msg sample_env (Z.of_nat (S i)) "down:80"
                        (backoff default_waiter i)) (seq 0 n).
Proof.
  assert (exists r, fst (wait_for_target sample_env default_waiter 20 "down:80" true ∅ w0)
                    = Ret r) as [r Hr] by (eexists; vm_compute; reflexivity).
  destruct (verbose_prints sample_env default_waiter 20 "down:80" true ∅ w0 r Hr)
    as (n & Hs & Hp).
  exists r, n. split; [exact Hr|]. split; [exact Hs | exact Hp].
Defined.

Lemma any_mode_without_success_witness :
  Forall (fun run => exists r, fst run = Ret r /\ success r = false)
         (run_workers (stub_env 0) default_waiter 20 failing_targets false (now w0)) /\
  wait_for_multiple (stub_env 0) default_waiter 20 failing_targets false false [0; 1]%nat w0 =
  wait_for_multiple (stub_env 0) default_waiter 20 failing_targets true false [0; 1]%nat w0.
Proof.
  assert (Forall (fun run => exists r, fst run = Ret r /\ success r = false)
            (run_workers (stub_env 0) default_waiter 20 failing_targets false (now w0))) as H
    by (vm_compute; repeat constructor; eexists; split; reflexivity).
  split; [exact H|].
  exact (any_mode_without_success_is_all_mode (stub_env 0) default_waiter 20 failing_targets
           false [0; 1]%nat w0 H).
Defined.

Lemma any_mode_success_is_last_witness :
  exists rs,
    fst (wait_for_multiple sample_env default_waiter 20 two_targets false false
           [1; 0]%nat w0) = Ret rs /\
    forall i r, rs !! i = Some r -> success r = true -> S i = length rs.
Proof.
  eexists. split; [vm_compute; reflexivity|].
  apply (any_mode_success_is_last sample_env default_waiter 20 two_targets false [1; 0]%nat w0).
  vm_compute. reflexivity.
Defined.

Lemma verdict_independent_witness :
  two_targets <> [] /\
  [0; 1]%nat ≡ₚ seq 0 (length two_targets) /\
  [1; 0]%nat ≡ₚ seq 0 (length two_targets) /\
  exists rs1 rs2,
    fst (wait_for_multiple sample_env default_waiter 20 two_targets (negb true) false
           [0; 1]%nat w0) = Ret rs1 /\
    fst (wait_for_multiple sample_env default_waiter 20 two_targets (negb true) false
           [1; 0]%nat w0) = Ret rs2 /\
    exit_code true rs1 = exit_code true rs2.
Proof.
  assert (two_targets <> []) as Hne by discriminate.
  assert ([0; 1]%nat ≡ₚ seq 0 (length two_targets)) as H1 by reflexivity.
  assert ([1; 0]%nat ≡ₚ seq 0 (length two_targets)) as H2 by apply perm_swap.
  split; [exact Hne|]. split; [exact H1|]. split; [exact H2|].
  exact (verdict_independent_of_completion_order sample_env default_waiter 20 two_targets
           true false [0; 1]%nat [1; 0]%nat w0 Hne two_workers_return H1 H2).
Defined.

Lemma mixed_workers_end :
  Forall (fun run => fst run <> Diverge)
         (run_workers strict_env default_waiter 20 mixed_targets false (now w0)).
Proof. vm_compute. repeat constructor; discriminate. Qed.

Lemma worker_error_is_raised_witness :
  mixed_targets <> [] /\
  omap (fun i => fst <$> run_workers strict_env default_waiter 20 mixed_targets false
                           (now w0) !! i) [0; 1]%nat
    = map Ret [mkWaitResult true "up:80" 1 (1 # 10) None] ++
      Raise (OverflowError "connect_ex(): port must be 0-65535.") :: [] /\
  fst (wait_for_multiple strict_env default_waiter 20 mixed_targets true false
         [0; 1]%nat w0)
    = Raise (OverflowError "connect_ex(): port must be 0-65535.").
Proof.
  assert (mixed_targets <> []) as Hne by discriminate.
  assert (omap (fun i => fst <$> run_workers strict_env default_waiter 20 mixed_targets false
                                   (now w0) !! i) [0; 1]%nat
          = map Ret [mkWaitResult true "up:80" 1 (1 # 10) None] ++
            Raise (OverflowError "connect_ex(): port must be 0-65535.") :: []) as Hd
    by (vm_compute; reflexivity).
  split; [exact Hne|]. split; [exact Hd|].
  exact (worker_error_is_raised strict_env default_waiter 20 mixed_targets true false
           [0; 1]%nat w0 _ _ _ Hne mixed_workers_end Hd (or_introl eq_refl)).
Defined.

Lemma any_mode_first_success_wins_witness :
  mixed_targets <> [] /\
  omap (fun i => fst <$> run_workers strict_env default_waiter 20 mixed_targets false
                           (now w0) !! i) [0; 1]%nat
    = map Ret [] ++ Ret (mkWaitResult true "up:80" 1 (1 # 10) None) ::
      [Raise (OverflowError "connect_ex(): port must be 0-65535.")] /\
  fst (wait_for_multiple strict_env default_waiter 20 mixed_targets false false
         [0; 1]%nat w0)
    = Ret ([] ++ [mkWaitResult true "up:80" 1 (1 # 10) None]).
Proof.
  assert (mixed_targets <> []) as Hne by discriminate.
  assert (omap (fun i => fst <$> run_workers strict_env default_waiter 20 mixed_targets false
                                   (now w0) !! i) [0; 1]%nat
          = map Ret [] ++ Ret (mkWaitResult true "up:80" 1 (1 # 10) None) ::
            [Raise (OverflowError "connect_ex(): port must be 0-65535.")]) as Hd
    by (vm_compute; reflexivity).
  split; [exact Hne|]. split; [exact Hd|].
  exact (any_mode_first_success_wins strict_env default_waiter 20 mixed_targets false
           [0; 1]%nat w0 _ _ _ Hne mixed_workers_end Hd ltac:(constructor) eq_refl).
Defined.

Lemma parse_headers_last_wins_witness :
  occurs ":" "X-Trace" = false /\
  exists d0 d,
    parse_headers ["X-Trace: old"%string] w0 = (Ret d0, w0) /\
    parse_headers (["X-Trace: old"%string] ++ ["X-Trace" +:+ String ":" " a:b "]) w0
      = (Ret d, w0) /\
    d = <[str_strip "X-Trace" := str_strip " a:b "]> d0 /\
    d !! str_strip "X-Trace" = Some (str_strip " a:b ") /\
    (forall k', k' <> str_strip "X-Trace" -> d !! k' = d0 !! k').
Proof.
  split; [reflexivity|].
  exact (parse_headers_last_wins ["X-Trace: old"%string] "X-Trace" " a:b " w0 eq_refl).
Defined.

Lemma parse_headers_stripped_witness :
  exists d,
    fst (parse_headers (arg_header sample_args) w0) = Ret d /\
    forall k v, d !! k = Some v -> str_strip k = k /\ str_strip v = v.
Proof.
  destruct (parse_headers_from_ok ∅ (arg_header sample_args) w0) as (d & Hd).
  exists d. assert (fst (parse_headers (arg_header sample_args) w0) = Ret d) as H
    by (unfold parse_headers; by rewrite Hd).
  split; [exact H|].
  exact (parse_headers_stripped (arg_header sample_args) w0 d H).
Defined.


Lemma main_request_carries_options_witness :
  arg_targets sample_args = ["http://up/health"%string] /\
  is_http "http://up/health" = true /\
  enters_loop sample_env (cli_waiter sample_args) w0 /\
  exists d rest,
    parse_headers (arg_header sample_args) w0 = (Ret d, w0) /\
    new_events w0 (snd (main sample_env sample_json_dumps 5 [] sample_args w0))
      = (now (loop_entry sample_env w0),
         EvRequest (VStr (arg_method sample_args)) "http://up/health" (VDict d))
        :: rest.
Proof.
  split; [reflexivity|]. split; [reflexivity|]. split; [reflexivity|].
  exact (main_request_carries_options sample_env sample_json_dumps 5 [] sample_args w0
           "http://up/health" eq_refl eq_refl eq_refl ltac:(discriminate)).
Defined.


(** The sample command line, run. *)
Example main_sample_run :
  fst (main sample_env sample_json_dumps 5 [] sample_args w0) = Ret 0 /\
  map snd (trace (snd (main sample_env sample_json_dumps 5 [] sample_args w0))) =
    [EvRequest (VStr "GET") "http://up/health"
       (VDict {["Accept" := "application/json"; "X-Trace" := "a:b"]});
     EvPrint "✓ http://up/health"]%string.
Proof. split; vm_compute; reflexivity. Qed.

Lemma negative_interval_stops_the_wait_witness :
  enters_loop sample_env (mkPortWaiter 30 (-1) 5 2) w0 /\
  (initial_interval (mkPortWaiter 30 (-1) 5 2) < 0)%Q /\
  fst (probe_target sample_env (mkPortWaiter 30 (-1) 5 2) "down:80" ∅
         (now (tick sample_env w0)) (0 + 1) (loop_entry sample_env w0))
    = Ret (inl false) /\
  fst (wait_for_target sample_env (mkPortWaiter 30 (-1) 5 2) 1 "down:80" false ∅ w0)
    = Raise (ValueError "sleep length must be non-negative") /\
  sleeps (new_events w0
            (snd (wait_for_target sample_env (mkPortWaiter 30 (-1) 5 2) 1 "down:80"
                    false ∅ w0))) = [].
Proof.
  split; [reflexivity|]. split; [reflexivity|]. split; [reflexivity|].
  exact (negative_interval_stops_the_wait sample_env (mkPortWaiter 30 (-1) 5 2) 0 "down:80" false ∅
           w0 eq_refl eq_refl eq_refl).
Defined.
